(** * imitation.regularization: a shallow embedding

    Source: [src/imitation/regularization/__init__.py].

    Modelling choices
    - A Python [float] is an IEEE-754 binary64 number: Rocq's primitive
      [float], with the same rounding, infinities and NaN.  Python raises
      [ZeroDivisionError] on a float division by zero; torch does not.
    - torch is an external library: tensors and the torch operations the
      module calls are the fields of the class [Torch].  The general
      theorems hold for every implementation of that interface; closed
      examples run on the small reference implementation [RefTorch].
    - An object of class [Regularizer] is a record holding what [self]
      reaches: the optimizer's parameter groups, [lambda_], the strategy, and
      the chronological list of calls made to the collaborators (logger
      records, backward passes, strategy invocations, parameter writes).
    - A method is a function in a state-and-exception monad over that
      record: the state survives an exception, as the object does.
    - The abstract methods [_regularize_loss] and [_regularize_weight] are
      functions of the object and their arguments that return a value, as
      their docstrings ask; they are passed to the method of the family.

    Limits of the model
    - A zero-dimensional tensor is compared with a Python float in the
      dtype of the tensor: the float is first rounded to that dtype
      ([cast_scalar]), of which only that it keeps the order and NaN is
      assumed.  Tensors are floating-point tensors.
    - torch operations are total: an exception raised inside torch (shapes
      that do not broadcast, a backward pass on a tensor without gradient)
      is outside the model.  The gradients a backward pass stores are not
      represented, only the pass itself.
    - The parameter objects of the optimizer are distinct, as torch requires
      across groups; a parameter is addressed by its position.
    - Assertions are enabled (the interpreter does not run with [-O]). *)

From Stdlib Require Import ZArith Lia Floats PArith String.
From stdpp Require Import base list gmap strings.

Local Open Scope float_scope.

(* Decimal literals are read as Python reads them: the nearest binary64. *)
Set Warnings "-inexact-float".

(** ** Exceptions and results *)

Inductive exn : Type :=
  | AssertionError
  | ZeroDivisionError
  | OtherError (name : string).

Inductive result (A : Type) : Type :=
  | Ok (a : A)
  | Raise (e : exn).
Arguments Ok {A} a.
Arguments Raise {A} e.

Definition bindR {A B} (r : result A) (k : A -> result B) : result B :=
  match r with
  | Ok a => k a
  | Raise e => Raise e
  end.

Declare Scope py_scope.
Delimit Scope py_scope with py.
Notation "x <~ e ;; k" := (bindR e (fun x => k))
  (at level 100, e at next level, right associativity) : py_scope.
Local Open Scope py_scope.

(** [assert cond] *)
Definition py_assert (cond : bool) : result unit :=
  if cond then Ok tt else Raise AssertionError.

(** ** Python numbers *)

(** A Python number handed to torch: an [int] or a [float]. *)
Inductive scalar : Type :=
  | SInt (z : Z)
  | SFloat (f : float).

(** [float(z)] for a Python int (round to nearest even); only the
    literals 0 and 1 of the module reach it. *)
Definition float_of_int (z : Z) : float :=
  SF2Prim (binary_normalize prec emax z 0 false).

Definition float_of_scalar (s : scalar) : float :=
  match s with
  | SInt z => float_of_int z
  | SFloat f => f
  end.

(** [a / b] on two Python floats. *)
Definition float_truediv (a b : float) : result float :=
  if b =? 0 then Raise ZeroDivisionError else Ok (a / b).

(** Outcomes of [SFcompare]: [le_cmp c] says that [c] is "less or equal";
    [cmp_seq c1 c2] is the outcome of chaining two such comparisons. *)
Definition le_cmp (c : comparison) : bool :=
  match c with
  | Gt => false
  | _ => true
  end.


(** ** The torch interface *)

Class Torch : Type := {
  tensor : Type;
  (** [t.dim()] *)
  dim : tensor -> nat;
  (** [t.item()]: the single element as a Python float *)
  item : tensor -> float;
  (** [th.add(a, b)], [a + b] *)
  th_add : tensor -> tensor -> tensor;
  (** [th.add(a, s)], [a + s], [s + a] for a Python number [s] *)
  th_add_scalar : tensor -> scalar -> tensor;
  (** [s * a] for a Python number [s] *)
  th_mul_scalar : scalar -> tensor -> tensor;
  (** [a / b] *)
  th_div : tensor -> tensor -> tensor;
  (** [a / s] for a Python float [s] *)
  th_div_scalar : tensor -> float -> tensor;
  (** [s / a] for a Python float [s] *)
  th_rdiv_scalar : float -> tensor -> tensor;
  (** The Python float [x] as torch reads it in [t > x], [t < x] and
      [t == x]: rounded to the dtype of [t] (and widened back, as [item]
      widens the element).  For a float64 tensor it is [x] itself; for a
      float32 tensor 1.1 becomes float32(1.1). *)
  cast_scalar : tensor -> float -> float;
  (** Rounding keeps the order: it never puts [x] below [y] when [x] is not
      below [y] (NaN included, which is below nothing). *)
  cast_scalar_monotone : forall t x y,
    (x <? y) = false -> (cast_scalar t x <? cast_scalar t y) = false;
  (** Rounding keeps NaN. *)
  cast_scalar_nan : forall t x,
    is_nan x = true -> is_nan (cast_scalar t x) = true
}.

(** The two further torch functions [LpRegularizer] calls. *)
Class TorchLinalg (T : Torch) : Type := {
  (** [th.linalg.vector_norm(t, ord=p)] *)
  vector_norm : tensor -> Z -> tensor;
  (** [t.pow(p)] *)
  th_pow : tensor -> Z -> tensor
}.

Section Model.
Context {T : Torch}.

(** [Union[float, th.Tensor]] as a value: what the penalty hooks return;
    the accumulator of [LpRegularizer] starts as the int 0. *)
Inductive pyval : Type :=
  | VNum (s : scalar)
  | VTensor (t : tensor).

(** [LossType = Union[th.Tensor, float]] *)
Inductive LossType : Type :=
  | LFloat (f : float)
  | LTensor (t : tensor).

(** What a method returns to its caller. *)
Inductive pyobj : Type :=
  | PyNone
  | PyTensor (t : tensor).

(** [isinstance(loss, float) or loss.dim() == 0] *)
Definition is_scalar_loss (loss : LossType) : bool :=
  match loss with
  | LFloat _ => true
  | LTensor t => Nat.eqb (dim t) 0
  end.

(** [val_loss / train_loss]: Python divides two floats and raises on a zero
    divisor; as soon as one operand is a tensor, torch divides. *)
Definition py_truediv (a b : LossType) : result LossType :=
  match a, b with
  | LFloat x, LFloat y => r <~ float_truediv x y ;; Ok (LFloat r)
  | LFloat x, LTensor u => Ok (LTensor (th_rdiv_scalar x u))
  | LTensor t, LFloat y => Ok (LTensor (th_div_scalar t y))
  | LTensor t, LTensor u => Ok (LTensor (th_div t u))
  end.

(** The value a scalar loss compares by: the float itself, or the element of
    a zero-dimensional tensor. *)
Definition loss_value (r : LossType) : float :=
  match r with
  | LFloat f => f
  | LTensor t => item t
  end.

(** The Python float [x] as it enters a comparison with the scalar [r]:
    itself against a Python float, rounded to the tensor's dtype against a
    tensor. *)
Definition bound_for (r : LossType) (x : float) : float :=
  match r with
  | LFloat _ => x
  | LTensor t => cast_scalar t x
  end.

(** [bool(r > x)], [bool(r < x)], [bool(r == x)] for a scalar [r] and a
    Python float [x]: Python's comparison of two floats, torch's comparison
    in the dtype of the tensor. *)
Definition loss_gt (r : LossType) (x : float) : bool :=
  bound_for r x <? loss_value r.
Definition loss_lt (r : LossType) (x : float) : bool :=
  loss_value r <? bound_for r x.
Definition loss_eq (r : LossType) (x : float) : bool :=
  loss_value r =? bound_for r x.

(** [th.add(t, v)] where [v] is a number or a tensor. *)
Definition th_add_val (t : tensor) (v : pyval) : tensor :=
  match v with
  | VNum s => th_add_scalar t s
  | VTensor u => th_add t u
  end.

(** ** Lambda-update strategies *)

Record IntervalParamScaler : Type := {
  scaling_factor : float;
  tolerable_interval : float * float
}.

(** [IntervalParamScaler.__call__] *)
Definition IntervalParamScaler_call (self : IntervalParamScaler)
    (lambda_ : float) (train_loss val_loss : LossType) : result float :=
  _ <~ py_assert (is_scalar_loss val_loss) ;;
  _ <~ py_assert (is_scalar_loss train_loss) ;;
  val_to_train_ratio <~ py_truediv val_loss train_loss ;;
  if loss_gt val_to_train_ratio (snd (tolerable_interval self)) then
    Ok (lambda_ * (1 + scaling_factor self))
  else if loss_lt val_to_train_ratio (fst (tolerable_interval self)) then
    Ok (lambda_ * (1 - scaling_factor self))
  else
    Ok lambda_.

(** [ConstantParamScaler.__call__] *)
Definition ConstantParamScaler_call
    (lambda_ : float) (train_loss val_loss : LossType) : result float :=
  Ok lambda_.

(** The protocol [LambdaUpdater]: the two classes of the module, or any
    callable of the user's (side-effect free, as the protocol demands). *)
Inductive LambdaUpdater : Type :=
  | Interval (s : IntervalParamScaler)
  | Constant
  | Custom (f : float -> LossType -> LossType -> result float).

Definition isinstance_ConstantParamScaler (u : LambdaUpdater) : bool :=
  match u with
  | Constant => true
  | _ => false
  end.

(** [u(lambda_, train_loss, val_loss)] *)
Definition LambdaUpdater_call (u : LambdaUpdater)
    (lambda_ : float) (train_loss val_loss : LossType) : result float :=
  match u with
  | Interval s => IntervalParamScaler_call s lambda_ train_loss val_loss
  | Constant => ConstantParamScaler_call lambda_ train_loss val_loss
  | Custom f => f lambda_ train_loss val_loss
  end.

(** ** The optimizer's parameters *)

(** A parameter, through its [.data]. *)
Record Param : Type := { data : tensor }.

(** A parameter group: [group["params"]] and [group["lr"]]. *)
Record ParamGroup : Type := {
  params : list Param;
  lr : float
}.

(** ** The regularizer object *)

(** Calls to the collaborators, in the order they are made. *)
Inductive Event : Type :=
  (** [logger.record(key, value)] *)
  | EvRecord (key : string) (value : float)
  (** [t.backward()] *)
  | EvBackward (t : tensor)
  (** [lambda_updater(lambda_, train_loss, val_loss)] *)
  | EvUpdater (lambda_ : float) (train_loss val_loss : LossType)
  (** [param.data = v] for parameter [pi] of group [gi] *)
  | EvSetData (gi pi : nat) (v : tensor).

Record Regularizer : Type := {
  (** [self.optimizer.param_groups] *)
  param_groups : list ParamGroup;
  lambda_ : float;
  lambda_updater : LambdaUpdater;
  (** what [self.logger], autograd, the strategy and the parameters saw *)
  trace : list Event
}.

Definition is_record (e : Event) : bool :=
  match e with
  | EvRecord _ _ => true
  | _ => false
  end.

(** The entries the logger received. *)
Definition logger_records (self : Regularizer) : list Event :=
  List.filter is_record (trace self).

(** ** Methods: state and exceptions *)

Definition M (A : Type) : Type := Regularizer -> result A * Regularizer.

Definition ret {A} (a : A) : M A := fun self => (Ok a, self).

Definition bind {A B} (m : M A) (k : A -> M B) : M B :=
  fun self =>
    match m self with
    | (Ok a, self') => k a self'
    | (Raise e, self') => (Raise e, self')
    end.

Notation "x <- e ;; k" := (bind e (fun x => k))
  (at level 100, e at next level, right associativity) : py_scope.
Notation "e ;; k" := (bind e (fun _ => k))
  (at level 100, right associativity) : py_scope.

Definition get : M Regularizer := fun self => (Ok self, self).

Definition lift {A} (r : result A) : M A := fun self => (r, self).

Definition emit (e : Event) : M unit :=
  fun self =>
    (Ok tt, {| param_groups := param_groups self; lambda_ := lambda_ self;
               lambda_updater := lambda_updater self;
               trace := trace self ++ [e] |}).

(** [self.lambda_ = v] *)
Definition set_lambda (v : float) : M unit :=
  fun self =>
    (Ok tt, {| param_groups := param_groups self; lambda_ := v;
               lambda_updater := lambda_updater self;
               trace := trace self |}).

(** [self.logger.record(key, value)] *)
Definition logger_record (key : string) (value : float) : M unit :=
  emit (EvRecord key value).

(** [t.backward()] *)
Definition backward (t : tensor) : M unit := emit (EvBackward t).

(** The parameter groups after [param.data = v] on parameter [pi] of group
    [gi]. *)
Definition write_data (gi pi : nat) (v : tensor)
    (groups : list ParamGroup) : list ParamGroup :=
  match groups !! gi with
  | Some group =>
      <[gi := {| params := <[pi := {| data := v |}]> (params group);
                 lr := lr group |}]> groups
  | None => groups
  end.

(** [param.data = v] *)
Definition set_data (gi pi : nat) (v : tensor) : M unit :=
  fun self =>
    (Ok tt, {| param_groups := write_data gi pi v (param_groups self);
               lambda_ := lambda_ self;
               lambda_updater := lambda_updater self;
               trace := trace self ++ [EvSetData gi pi v] |}).

(** [for x in l: body(x)] *)
Fixpoint for_each {A} (l : list A) (body : A -> M unit) : M unit :=
  match l with
  | [] => ret tt
  | x :: l' => body x ;; for_each l' body
  end.

(** ** [Regularizer] *)

(** [Regularizer.__init__]; [log] is what the logger had received before. *)
Definition Regularizer_init (optimizer : list ParamGroup)
    (initial_lambda : float) (updater : LambdaUpdater)
    (log : list Event) : Regularizer :=
  {| param_groups := optimizer; lambda_ := initial_lambda;
     lambda_updater := updater;
     trace := log ++ [EvRecord "regularization_lambda" initial_lambda] |}.

(** [Regularizer.update_params] *)
Definition update_params (train_loss val_loss : LossType) : M pyobj :=
  self <- get ;;
  if negb (isinstance_ConstantParamScaler (lambda_updater self)) then
    emit (EvUpdater (lambda_ self) train_loss val_loss) ;;
    new_lambda <- lift (LambdaUpdater_call (lambda_updater self)
                          (lambda_ self) train_loss val_loss) ;;
    set_lambda new_lambda ;;
    self <- get ;;
    logger_record "regularization_lambda" (lambda_ self) ;;
    ret PyNone
  else
    ret PyNone.

(** ** [LossRegularizer] *)

(** [LossRegularizer.regularize]; the abstract method [_regularize_loss]
    is the argument, a function of the object and the loss. *)
Definition LossRegularizer_regularize
    (_regularize_loss : Regularizer -> tensor -> pyval)
    (loss : tensor) : M pyobj :=
  self <- get ;;
  let regularized_loss := th_add_val loss (_regularize_loss self loss) in
  backward regularized_loss ;;
  logger_record "regularized_loss" (item regularized_loss) ;;
  ret (PyTensor regularized_loss).

(** ** [WeightRegularizer] *)

(** The body of the inner loop: [param] is parameter [pi] of group [gi],
    both read from the live objects. *)
Definition regularize_param
    (_regularize_weight : Regularizer -> Param -> ParamGroup -> pyval)
    (gi pi : nat) : M unit :=
  self <- get ;;
  match param_groups self !! gi with
  | Some group =>
      match params group !! pi with
      | Some param =>
          set_data gi pi
            (th_add_val (data param) (_regularize_weight self param group))
      | None => ret tt
      end
  | None => ret tt
  end.

(** The body of the outer loop. *)
Definition regularize_group
    (_regularize_weight : Regularizer -> Param -> ParamGroup -> pyval)
    (gi : nat) : M unit :=
  self <- get ;;
  match param_groups self !! gi with
  | Some group =>
      for_each (seq 0 (length (params group)))
        (regularize_param _regularize_weight gi)
  | None => ret tt
  end.

(** [WeightRegularizer.regularize]; the abstract method
    [_regularize_weight] is the argument. *)
Definition WeightRegularizer_regularize
    (_regularize_weight : Regularizer -> Param -> ParamGroup -> pyval)
    (loss : tensor) : M pyobj :=
  backward loss ;;
  self <- get ;;
  for_each (seq 0 (length (param_groups self)))
    (regularize_group _regularize_weight) ;;
  ret PyNone.

(** ** [WeightDecayRegularizer] *)

(** [WeightDecayRegularizer._regularize_weight]:
    [-self.lambda_ * group["lr"] * weight.data] *)
Definition WeightDecayRegularizer_regularize_weight
    (self : Regularizer) (weight : Param) (group : ParamGroup) : pyval :=
  VTensor (th_mul_scalar (SFloat (- lambda_ self * lr group)) (data weight)).

Definition WeightDecayRegularizer_regularize : tensor -> M pyobj :=
  WeightRegularizer_regularize WeightDecayRegularizer_regularize_weight.

(** ** [LpRegularizer] *)

Section Lp.
Context {L : TorchLinalg T}.

(** [penalty += x] for a tensor [x]: the accumulator is the int 0 before
    the first parameter and a tensor afterwards. *)
Definition penalty_add (penalty : pyval) (x : tensor) : pyval :=
  match penalty with
  | VNum s => VTensor (th_add_scalar x s)
  | VTensor t => VTensor (th_add t x)
  end.

(** [lam * penalty] for the float [lam]. *)
Definition float_mul_val (lam : float) (penalty : pyval) : pyval :=
  match penalty with
  | VNum s => VNum (SFloat (lam * float_of_scalar s))
  | VTensor t => VTensor (th_mul_scalar (SFloat lam) t)
  end.

(** [th.linalg.vector_norm(param.data, ord=p).pow(p)] *)
Definition norm_pow (p : Z) (param : Param) : tensor :=
  th_pow (vector_norm (data param) p) p.

(** [LpRegularizer._regularize_loss]; [p] is the field [self.p]. *)
Definition LpRegularizer_regularize_loss (p : Z)
    (self : Regularizer) (loss : tensor) : pyval :=
  let penalty :=
    fold_left
      (fun penalty group =>
         fold_left
           (fun penalty param => penalty_add penalty (norm_pow p param))
           (params group) penalty)
      (param_groups self) (VNum (SInt 0)) in
  float_mul_val (lambda_ self) penalty.

Definition LpRegularizer_regularize (p : Z) : tensor -> M pyobj :=
  LossRegularizer_regularize (LpRegularizer_regularize_loss p).

(** The penalty in the words of the specification: lambda times the sum,
    over every parameter tensor of every group, of the p-th power of its
    Lp norm. *)
Definition all_params (groups : list ParamGroup) : list Param :=
  concat (List.map params groups).

(** The p-th power of the Lp vector norm of a tensor. *)
Definition lp_norm_power (p : Z) (t : tensor) : tensor :=
  th_pow (vector_norm t p) p.

(** The sum of tensors as Python's [sum] forms it, from the int 0 and from
    left to right; there is no tensor to return when the list is empty. *)
Definition tensor_sum (ts : list tensor) : option tensor :=
  match ts with
  | [] => None
  | t :: rest => Some (fold_left th_add rest (th_add_scalar t (SInt 0)))
  end.

Definition spec_lp_penalty (p : Z) (lam : float)
    (groups : list ParamGroup) : pyval :=
  match tensor_sum
          (List.map (lp_norm_power p) (List.map data (all_params groups))) with
  | Some total => VTensor (th_mul_scalar (SFloat lam) total)
  | None => VNum (SFloat (lam * 0))
  end.

End Lp.

(** Every position (group index, parameter index) of the optimizer, in
    iteration order. *)
Definition group_positions (gi : nat) (group : ParamGroup) : list (nat * nat) :=
  List.map (fun pi => (gi, pi)) (seq 0 (length (params group))).

Definition positions_of (groups : list ParamGroup) (gi : nat) : list (nat * nat) :=
  match groups !! gi with
  | Some group => group_positions gi group
  | None => []
  end.

Definition all_positions (groups : list ParamGroup) : list (nat * nat) :=
  flat_map (positions_of groups) (seq 0 (length groups)).

Definition event_position (e : Event) : option (nat * nat) :=
  match e with
  | EvSetData gi pi _ => Some (gi, pi)
  | _ => None
  end.

(** Parameter [pi] of group [gi], if there is one. *)
Definition param_at (self : Regularizer) (gi pi : nat) : option Param :=
  match param_groups self !! gi with
  | Some group => params group !! pi
  | None => None
  end.

(** [self] is [self0] up to the data of the parameters and the trace: same
    lambda_, same strategy, same groups with the same learning rates and the
    same number of parameters. *)
Definition same_frame (self0 self : Regularizer) : Prop :=
  lambda_ self = lambda_ self0 /\
  lambda_updater self = lambda_updater self0 /\
  lr <$> param_groups self = lr <$> param_groups self0 /\
  (fun g => length (params g)) <$> param_groups self
    = (fun g => length (params g)) <$> param_groups self0.

(** The state after the body of the inner loop, of the outer loop. *)
Definition param_step
    (f : Regularizer -> Param -> ParamGroup -> pyval)
    (gi pi : nat) (self : Regularizer) : Regularizer :=
  snd (regularize_param f gi pi self).

Definition group_step
    (f : Regularizer -> Param -> ParamGroup -> pyval)
    (gi : nat) (self : Regularizer) : Regularizer :=
  snd (regularize_group f gi self).

End Model.

(** ** A reference implementation of the torch interface

    Tensors of binary64 elements, stored flat with their shape; an operation
    on two tensors is elementwise, a zero-dimensional operand being
    broadcast.  It serves the closed examples below. *)

Record ref_tensor : Type := {
  shape : list nat;
  values : list float
}.

Definition ref_item (t : ref_tensor) : float := hd nan (values t).

Definition ref_map (op : float -> float) (a : ref_tensor) : ref_tensor :=
  {| shape := shape a; values := List.map op (values a) |}.

Definition ref_map2 (op : float -> float -> float)
    (a b : ref_tensor) : ref_tensor :=
  match shape a, shape b with
  | _, [] => ref_map (fun x => op x (ref_item b)) a
  | [], _ => ref_map (fun y => op (ref_item a) y) b
  | _, _ => {| shape := shape a; values := zip_with op (values a) (values b) |}
  end.

#[export] Instance RefTorch : Torch := {|
  tensor := ref_tensor;
  dim := fun t => length (shape t);
  item := ref_item;
  th_add := ref_map2 add;
  th_add_scalar := fun t s => ref_map (fun x => x + float_of_scalar s) t;
  th_mul_scalar := fun s t => ref_map (fun x => float_of_scalar s * x) t;
  th_div := ref_map2 div;
  th_div_scalar := fun t s => ref_map (fun x => x / s) t;
  th_rdiv_scalar := fun s t => ref_map (fun x => s / x) t;
  cast_scalar := fun t x => x;
  cast_scalar_monotone := fun t x y H => H;
  cast_scalar_nan := fun t x H => H
|}.

(** A zero-dimensional tensor and a vector. *)
Definition scalar_tensor (x : float) : @tensor RefTorch :=
  {| shape := []; values := [x] |}.

Definition vector_tensor (xs : list float) : @tensor RefTorch :=
  {| shape := [length xs]; values := xs |}.

(** The vector norm and the power for the orders and exponents 1 and 2,
    which the closed examples use: the sum of the absolute values, the
    square root of the sum of the squares; [x] and [x * x].  Any other order
    or exponent is not computed and gives NaN. *)
Definition ref_vector_norm (t : ref_tensor) (ord : Z) : ref_tensor :=
  scalar_tensor
    (if Z.eqb ord 1 then fold_left add (List.map abs (values t)) 0
     else if Z.eqb ord 2 then
       sqrt (fold_left add (List.map (fun x => x * x) (values t)) 0)
     else nan).

Definition ref_pow (t : ref_tensor) (p : Z) : ref_tensor :=
  ref_map (fun x => if Z.eqb p 1 then x
                    else if Z.eqb p 2 then x * x else nan) t.

#[export] Instance RefLinalg : TorchLinalg RefTorch := {|
  vector_norm := ref_vector_norm;
  th_pow := ref_pow
|}.

(** The scaler of the specification's examples: interval (0.9, 1.1),
    scaling factor 0.1. *)
Definition example_scaler : IntervalParamScaler :=
  {| scaling_factor := 0.1; tolerable_interval := (0.9, 1.1) |}.

(** A scaler whose bounds are swapped. *)
Definition inverted_scaler : IntervalParamScaler :=
  {| scaling_factor := 0.1; tolerable_interval := (2, 1) |}.

(** The end-to-end scenario of the specification: one group of learning
    rate 0.1 holding one parameter of value 2.0, weight decay with lambda
    0.5; and a second group of learning rate 0.2. *)
Definition scenario_param : @Param RefTorch :=
  {| data := vector_tensor [2] |}.

Definition scenario_group : @ParamGroup RefTorch :=
  {| params := [scenario_param]; lr := 0.1 |}.

Definition scenario_group_2 : @ParamGroup RefTorch :=
  {| params := [scenario_param]; lr := 0.2 |}.

Definition scenario_regularizer : @Regularizer RefTorch :=
  Regularizer_init [scenario_group] 0.5 Constant [].

Definition scenario_loss : @tensor RefTorch := scalar_tensor 3.

(** An optimizer with two groups, holding the vectors (3, 4) and (-6, 8),
    of Euclidean norms 5 and 10, under lambda 0.5. *)
Definition lp_example_regularizer : @Regularizer RefTorch :=
  Regularizer_init
    [ {| params := [ {| data := vector_tensor [3; 4] |} ]; lr := 0.1 |};
      {| params := [ {| data := vector_tensor [-6; 8] |} ]; lr := 0.2 |} ]
    0.5 Constant [].

(** A regularizer whose lambda is zero. *)
Definition zero_lambda_regularizer : @Regularizer RefTorch :=
  Regularizer_init [scenario_group; scenario_group_2] 0 Constant [].

(** A regularizer adapted by [example_scaler], starting from lambda 1. *)
Definition adaptive_regularizer : @Regularizer RefTorch :=
  Regularizer_init [scenario_group] 1 (Interval example_scaler) [].

(** A regularizer with a large finite lambda and scaling factor 1. *)
Definition overflow_scaler : IntervalParamScaler :=
  {| scaling_factor := 1; tolerable_interval := (0.9, 1.1) |}.

Definition overflow_regularizer : @Regularizer RefTorch :=
  Regularizer_init [scenario_group] 1e308 (Interval overflow_scaler) [].

(** ** What the logger last heard about lambda *)

(** The value of the most recent record under "regularization_lambda". *)
Definition last_lambda_record {T : Torch} (tr : list (@Event T)) : option float :=
  fold_left
    (fun last e =>
       match e with
       | EvRecord key value =>
           if String.eqb key "regularization_lambda" then Some value else last
       | _ => last
       end)
    tr None.

(** The logger is in step with the object: the last lambda it received is
    the current [lambda_]. *)
Definition lambda_logged {T : Torch} (self : @Regularizer T) : Prop :=
  last_lambda_record (trace self) = Some (lambda_ self).

(** A regularizer with zero-dimensional tensor losses of value zero in
    view: their ratio 0 / 0 is NaN. *)
Definition zero_tensor_loss : @LossType RefTorch :=
  LTensor (scalar_tensor 0).

(** * imitation.rewards.serialize: wrapper structure of reward networks

    Source: [src/imitation/rewards/serialize.py].  The classes of
    [imitation.rewards.reward_nets] are not part of the module: the class
    hierarchy is a parameter.  A reward network is seen through what the
    module looks at: its class, and its [base] attribute when it has one. *)

Inductive pyexn : Type :=
  | PyAssertionError
  | PyAttributeError
  | PyIndexError
  | PyKeyError (key : string)
  | PyTypeError (msg : string).

Inductive outcome (A : Type) : Type :=
  | Returns (a : A)
  | Raises (e : pyexn).
Arguments Returns {A} a.
Arguments Raises {A} e.

Definition and_then {A B} (r : outcome A) (k : A -> outcome B) : outcome B :=
  match r with
  | Returns a => k a
  | Raises e => Raises e
  end.

Notation "x <-- e ;; k" := (and_then e (fun x => k))
  (at level 100, e at next level, right associativity) : py_scope.

Class RewardNetClasses : Type := {
  cls : Type;
  (** [issubclass(c, t)] *)
  issubclass : cls -> cls -> bool;
  (** [c.__name__] *)
  class_name : cls -> string;
  RewardNetWrapper : cls;
  ShapedRewardNet : cls;
  NormalizedRewardNet : cls;
  AddSTDRewardWrapper : cls
}.

Section RewardNets.
Context {H : RewardNetClasses}.

Inductive RewardNet : Type :=
  (** an object of class [c] without a [base] attribute *)
  | BaseNet (c : cls)
  (** an object of class [c] whose [base] attribute is [base] *)
  | WrappedNet (c : cls) (base : RewardNet).

(** [net.__class__] *)
Definition class_of (net : RewardNet) : cls :=
  match net with
  | BaseNet c => c
  | WrappedNet c _ => c
  end.

(** [isinstance(net, t)] *)
Definition isinstance (net : RewardNet) (t : cls) : bool :=
  issubclass (class_of net) t.

(** [_strip_wrappers] *)
Fixpoint _strip_wrappers (reward_net : RewardNet) (wrapper_types : list cls)
    {struct wrapper_types} : outcome RewardNet :=
  match wrapper_types with
  | [] => Returns reward_net
  | wrapper_type :: rest =>
      if issubclass wrapper_type RewardNetWrapper then
        if isinstance reward_net wrapper_type then
          match reward_net with
          | WrappedNet _ base => _strip_wrappers base rest
          | BaseNet _ => Raises PyAttributeError
          end
        else Returns reward_net
      else Raises PyAssertionError
  end.

(** The inner loop of [_validate_wrapper_structure]: the final value of
    [valid] for one prefix. *)
Fixpoint prefix_valid (wrapper : RewardNet) (prefix : list cls)
    {struct prefix} : bool :=
  match prefix with
  | [] => true
  | t :: rest =>
      if isinstance wrapper t then
        match wrapper with
        | WrappedNet _ base => prefix_valid base rest
        | BaseNet _ => true
        end
      else false
  end.

(** The classes met by following [base] from the outermost object: the
    list [wrappers] of the error path. *)
Fixpoint wrapper_classes (wrapper : RewardNet) : list cls :=
  match wrapper with
  | BaseNet c => [c]
  | WrappedNet c base => c :: wrapper_classes base
  end.

(** ["[" + ",".join(t.__name__ for t in classes) + "]"] *)
Definition format_classes (classes : list cls) : string :=
  String.append "["
    (String.append (String.concat "," (List.map class_name classes)) "]").

Definition wrapper_structure_message (reward_net : RewardNet)
    (prefixes : list (list cls)) : string :=
  String.append "Wrapper structure should "
    (String.append "be match (one of) "
       (String.append
          (String.concat " or " (List.map format_classes prefixes))
          (String.append " but found "
             (format_classes (wrapper_classes reward_net))))).

(** The outer loop of [_validate_wrapper_structure]: whether some prefix is
    valid. *)
Fixpoint some_prefix_valid (reward_net : RewardNet)
    (prefixes : list (list cls)) : bool :=
  match prefixes with
  | [] => false
  | prefix :: rest =>
      if prefix_valid reward_net prefix then true
      else some_prefix_valid reward_net rest
  end.

(** [_validate_wrapper_structure] *)
Definition _validate_wrapper_structure (reward_net : RewardNet)
    (prefixes : list (list cls)) : outcome RewardNet :=
  if some_prefix_valid reward_net prefixes then Returns reward_net
  else Raises (PyTypeError (wrapper_structure_message reward_net prefixes)).

(** The network each registry entry hands to [_make_functional], from the
    network [th.load] returned. *)
Definition shaped_net (loaded : RewardNet) : outcome RewardNet :=
  _validate_wrapper_structure loaded [[ShapedRewardNet]].

Definition unshaped_net (loaded : RewardNet) : outcome RewardNet :=
  _strip_wrappers loaded [ShapedRewardNet].

Definition normalized_net (loaded : RewardNet) : outcome RewardNet :=
  _validate_wrapper_structure loaded [[NormalizedRewardNet]].

Definition unnormalized_net (loaded : RewardNet) : outcome RewardNet :=
  _strip_wrappers loaded [NormalizedRewardNet].

Definition std_added_net (loaded : RewardNet) : outcome RewardNet :=
  net <-- _validate_wrapper_structure loaded
            [[AddSTDRewardWrapper];
             [NormalizedRewardNet; AddSTDRewardWrapper]] ;;
  _strip_wrappers net [NormalizedRewardNet].

(** [net.base], [k] times. *)
Fixpoint unwrap (k : nat) (net : RewardNet) : option RewardNet :=
  match k with
  | O => Some net
  | S k' =>
      match net with
      | WrappedNet _ base => unwrap k' base
      | BaseNet _ => None
      end
  end.

End RewardNets.

(** A small class hierarchy for the closed examples: the base class, the
    wrapper class, three wrappers deriving from it and a plain network. *)
Inductive example_class : Type :=
  | CRewardNet | CRewardNetWrapper | CShaped | CNormalized | CAddSTD | CBasic.

Definition example_parent (c : example_class) : option example_class :=
  match c with
  | CRewardNet => None
  | CRewardNetWrapper => Some CRewardNet
  | CShaped => Some CRewardNetWrapper
  | CNormalized => Some CRewardNetWrapper
  | CAddSTD => Some CRewardNetWrapper
  | CBasic => Some CRewardNet
  end.

Definition example_class_eqb (a b : example_class) : bool :=
  match a, b with
  | CRewardNet, CRewardNet | CRewardNetWrapper, CRewardNetWrapper
  | CShaped, CShaped | CNormalized, CNormalized | CAddSTD, CAddSTD
  | CBasic, CBasic => true
  | _, _ => false
  end.

(** [issubclass]: the class itself or an ancestor (the hierarchy is three
    levels deep). *)
Definition example_issubclass (c t : example_class) : bool :=
  example_class_eqb c t ||
  match example_parent c with
  | Some c1 =>
      example_class_eqb c1 t ||
      match example_parent c1 with
      | Some c2 => example_class_eqb c2 t
      | None => false
      end
  | None => false
  end.

Definition example_class_name (c : example_class) : string :=
  match c with
  | CRewardNet => "RewardNet"
  | CRewardNetWrapper => "RewardNetWrapper"
  | CShaped => "ShapedRewardNet"
  | CNormalized => "NormalizedRewardNet"
  | CAddSTD => "AddSTDRewardWrapper"
  | CBasic => "BasicRewardNet"
  end.

#[export] Instance ExampleClasses : RewardNetClasses := {|
  cls := example_class;
  issubclass := example_issubclass;
  class_name := example_class_name;
  RewardNetWrapper := CRewardNetWrapper;
  ShapedRewardNet := CShaped;
  NormalizedRewardNet := CNormalized;
  AddSTDRewardWrapper := CAddSTD
|}.

(** Basic, Shaped(Basic), AddSTD(Basic), Normalized(AddSTD(Basic)) and
    Shaped(Shaped(Basic)). *)
Definition basic_net : @RewardNet ExampleClasses := BaseNet CBasic.

Definition shaped_basic_net : @RewardNet ExampleClasses :=
  WrappedNet CShaped basic_net.

Definition std_basic_net : @RewardNet ExampleClasses :=
  WrappedNet CAddSTD basic_net.

Definition normalized_std_net : @RewardNet ExampleClasses :=
  WrappedNet CNormalized std_basic_net.

Definition twice_shaped_net : @RewardNet ExampleClasses :=
  WrappedNet CShaped shaped_basic_net.

(** ** Reward functions on arrays

    A numpy array is seen through its shape and its elements. *)

Record ndarray : Type := {
  nd_shape : list nat;
  nd_data : list float
}.

(** [len(a)] *)
Definition py_len (a : ndarray) : outcome nat :=
  match nd_shape a with
  | [] => Raises (PyTypeError "len() of unsized object")
  | n :: _ => Returns n
  end.

(** [a.shape[0]] *)
Definition shape_0 (a : ndarray) : outcome nat :=
  match nd_shape a with
  | [] => Raises PyIndexError
  | n :: _ => Returns n
  end.

(** [np.zeros(n)] *)
Definition np_zeros (n : nat) : ndarray :=
  {| nd_shape := [n]; nd_data := repeat 0 n |}.

(** [common.RewardFn]: from (obs, act, next_obs, dones) to rewards. *)
Definition RewardFn : Type :=
  ndarray -> ndarray -> ndarray -> ndarray -> outcome ndarray.

(** [_validate_reward] *)
Definition _validate_reward (reward : RewardFn) : RewardFn :=
  fun obs act next_obs dones =>
    rew <-- reward obs act next_obs dones ;;
    n <-- py_len obs ;;
    if decide (nd_shape rew = [n]) then Returns rew
    else Raises PyAssertionError.

(** [load_zero]; [venv] is unused. *)
Definition load_zero {VecEnv : Type} (path : string) (venv : VecEnv)
    : RewardFn :=
  fun obs act next_obs dones =>
    n <-- shape_0 obs ;;
    Returns (np_zeros n).

(** * imitation.scripts.parallel

    Source: [src/imitation/scripts/parallel.py].  Ray, Optuna and Sacred are
    external: a call to them is an event of the trace, and its outcome
    (a value or an exception) is given by the fields of the class
    [RayWorld].  Copies ([list], [copy.deepcopy]) and [ray.shutdown] do not
    raise; the four statements that load a previous experiment are one
    call. *)

Set Warnings "-register-all".

(** Python values of configurations. *)
Inductive pyvalue : Type :=
  | PNone
  | PStr (s : string)
  | PInt (z : Z)
  | PList (l : list pyvalue)
  | PDict (d : gmap string pyvalue).

(** A [dict] with string keys: keyword arguments, configurations. *)
Abbreviation kwargs := (gmap string pyvalue).

(** [d.update(m)]: the entries of [m] replace those of [d]. *)
Definition dict_update (d m : kwargs) : kwargs := m ∪ d.

(** ** [_make_functional] of [imitation.rewards.serialize]

    The default value [dict()] of the parameter [default_kwargs] is one
    object, made when the function is defined and shared by every call that
    does not pass the parameter; the returned lambda reads the dict it holds
    when it is called. *)

(** The dict a functional holds: the shared default, or the caller's. *)
Inductive kwargs_ref : Type :=
  | SharedDefault
  | Own (d : kwargs).

(** The lambda [_make_functional] returns. *)
Record Functional (Net : Type) : Type := {
  fn_net : Net;
  fn_attr : string;
  fn_kwargs : kwargs_ref
}.
Arguments fn_net {Net} _.
Arguments fn_attr {Net} _.
Arguments fn_kwargs {Net} _.

(** [_make_functional(net, attr, default_kwargs, **kw)]: [default_kwargs]
    is [None] when the caller leaves the parameter out; the state is the
    content of the shared default dict. *)
Definition _make_functional {Net : Type} (net : Net) (attr : string)
    (default_kwargs : option kwargs) (kw : kwargs) (shared : kwargs)
    : Functional Net * kwargs :=
  match default_kwargs with
  | None =>
      ({| fn_net := net; fn_attr := attr; fn_kwargs := SharedDefault |},
       dict_update shared kw)
  | Some d =>
      ({| fn_net := net; fn_attr := attr; fn_kwargs := Own (dict_update d kw) |},
       shared)
  end.

(** The keyword arguments a functional passes to [getattr(net, attr)] when
    it is called while the shared default holds [shared]. *)
Definition passed_kwargs {Net : Type} (f : Functional Net) (shared : kwargs)
    : kwargs :=
  match fn_kwargs f with
  | SharedDefault => shared
  | Own d => d
  end.

(** [isinstance(v, collections.abc.Sequence)]: lists, and strings too. *)
Definition is_sequence (v : pyvalue) : bool :=
  match v with
  | PList _ | PStr _ => true
  | _ => false
  end.

(** [isinstance(v, collections.abc.Mapping)] *)
Definition is_mapping (v : pyvalue) : bool :=
  match v with
  | PDict _ => true
  | _ => false
  end.

(** [list(v)] for a sequence: the elements of a list, the characters of a
    string. *)
Definition list_of_sequence (v : pyvalue) : list pyvalue :=
  match v with
  | PList l => l
  | PStr s =>
      List.map (fun c => PStr (String c EmptyString)) (list_ascii_of_string s)
  | _ => []
  end.

(** The entries of a mapping. *)
Definition dict_of_mapping (v : pyvalue) : kwargs :=
  match v with
  | PDict d => d
  | _ => ∅
  end.

(** A Sacred run, through [run.status] and [run.result]. *)
Record Run : Type := {
  status : string;
  run_result : pyvalue
}.

(** The arguments of [_ray_tune_sacred_wrapper], which the trainable
    closes over. *)
Record Trainable : Type := {
  tr_sacred_ex_name : string;
  tr_run_name : string;
  tr_base_named_configs : list pyvalue;
  tr_base_config_updates : kwargs
}.

(** The arguments of [ray.tune.run]; [tune_search_alg] is [None] or the
    repeat count of the Optuna repeater. *)
Record TuneArgs : Type := {
  tune_trainable : Trainable;
  tune_config : kwargs;
  tune_num_samples : Z;
  tune_name : string;
  tune_local_dir : option string;
  tune_resources_per_trial : kwargs;
  tune_upload_dir : option string;
  tune_syncer : pyvalue;
  tune_search_alg : option Z;
  tune_metric : string;
  tune_mode : string
}.

Class RayWorld : Type := {
  ExperimentAnalysis : Type;
  (** [ray.init] on the keyword arguments [init_kwargs] *)
  ray_init : kwargs -> outcome unit;
  (** [search.Repeater(optuna.OptunaSearch(), repeat=repeat)] *)
  optuna_repeater : Z -> outcome unit;
  (** loading the analysis of a previous experiment from its path *)
  load_experiment : string -> outcome ExperimentAnalysis;
  (** [ray.tune.run(...)] *)
  tune_run : TuneArgs -> outcome ExperimentAnalysis;
  (** [ex.run] of the named experiment on the keyword arguments
      [run_kwargs] and [options] *)
  ex_run : string -> kwargs -> kwargs -> outcome Run
}.

Inductive RayEvent : Type :=
  | RayInit (init_kwargs : kwargs)
  | OptunaRepeater (repeat : Z)
  | LoadExperiment (path : string)
  | TuneRun (args : TuneArgs)
  | RayShutdown.

Section Parallel.
Context {W : RayWorld}.

(** The keys of [experiments] in [inner]. *)
Definition experiments : list string :=
  ["train_rl"; "train_adversarial"; "train_imitation";
   "train_preference_comparisons"].

Definition is_experiment (name : string) : bool :=
  existsb (String.eqb name) experiments.

(** What a trial touches besides its arguments: Sacred's capture mode and
    the [config] dict handed in by Ray, which [inner] modifies. *)
Record TrialState : Type := {
  capture_mode : string;
  config : kwargs
}.

(** The function [inner] that [_ray_tune_sacred_wrapper] returns.  A
    "named_configs" entry that is not a list or a "config_updates" entry
    that is not a mapping is outside the model ([parallel] has rejected
    them): it is given [TypeError]. *)
Definition inner (trainable : Trainable) (st : TrialState)
    : outcome pyvalue * TrialState :=
  let st1 := {| capture_mode := "sys"; config := config st |} in
  let run_kwargs := config st1 in
  if negb (is_experiment (tr_sacred_ex_name trainable)) then
    (Raises (PyKeyError (tr_sacred_ex_name trainable)), st1)
  else
    match run_kwargs !! "named_configs" with
    | None => (Raises (PyKeyError "named_configs"), st1)
    | Some (PList search_named_configs) =>
        let named_configs :=
          tr_base_named_configs trainable ++ search_named_configs in
        match run_kwargs !! "config_updates" with
        | None => (Raises (PyKeyError "config_updates"), st1)
        | Some (PDict search_config_updates) =>
            let config_updates :=
              dict_update
                (dict_update ∅ (tr_base_config_updates trainable))
                search_config_updates in
            (* if "__trial_index__" in run_kwargs:
                 config_updates.update(seed=run_kwargs.pop(...)) *)
            let '(config_updates, run_kwargs) :=
              match run_kwargs !! "__trial_index__" with
              | Some index =>
                  (<["seed" := index]> config_updates,
                   delete "__trial_index__" run_kwargs)
              | None => (config_updates, run_kwargs)
              end in
            let st2 := {| capture_mode := "sys"; config := run_kwargs |} in
            let updated_run_kwargs : kwargs :=
              <["config_updates" := PDict config_updates]>
                (<["named_configs" := PList named_configs]> ∅) in
            (* for k, v in run_kwargs.items():
                 if k not in updated_run_kwargs: updated_run_kwargs[k] = v *)
            let updated_run_kwargs := updated_run_kwargs ∪ run_kwargs in
            let options : kwargs :=
              <["--run" := PStr (tr_run_name trainable)]>
                (<["--file_storage" := PStr "sacred"]> ∅) in
            (* a keyword passed twice *)
            match updated_run_kwargs !! "options" with
            | Some _ =>
                (Raises (PyTypeError
                   "got multiple values for keyword argument 'options'"), st2)
            | None =>
                match ex_run (tr_sacred_ex_name trainable)
                        updated_run_kwargs options with
                | Raises e => (Raises e, st2)
                | Returns run =>
                    if String.eqb (status run) "COMPLETED" then
                      (Returns (run_result run), st2)
                    else (Raises PyAssertionError, st2)
                end
            end
        | Some _ => (Raises (PyTypeError "config_updates"), st1)
        end
    | Some _ => (Raises (PyTypeError "named_configs"), st1)
    end.

(** What [inner] does with the outcome of the experiment: the assertion on
    the status, and the result. *)
Definition finish_run (r : outcome Run) : outcome pyvalue :=
  match r with
  | Raises e => Raises e
  | Returns run =>
      if String.eqb (status run) "COMPLETED" then Returns (run_result run)
      else Raises PyAssertionError
  end.

(** The arguments fail the four checks at the head of [parallel]. *)
Definition parallel_invalid (search_space : kwargs)
    (base_named_configs base_config_updates : pyvalue) : bool :=
  negb (is_sequence base_named_configs)
  || negb (is_mapping base_config_updates)
  || match search_space !! "named_configs" with
     | Some v => negb (is_sequence v)
     | None => true
     end
  || match search_space !! "config_updates" with
     | Some v => negb (is_mapping v)
     | None => true
     end.

Definition is_try_event (e : RayEvent) : bool :=
  match e with
  | LoadExperiment _ | TuneRun _ => true
  | _ => false
  end.

(** [_ray_tune_sacred_wrapper]: the closure over its four arguments. *)
Definition _ray_tune_sacred_wrapper (sacred_ex_name run_name : string)
    (base_named_configs : list pyvalue) (base_config_updates : kwargs)
    : Trainable :=
  {| tr_sacred_ex_name := sacred_ex_name; tr_run_name := run_name;
     tr_base_named_configs := base_named_configs;
     tr_base_config_updates := base_config_updates |}.

(** The double quote, and ['search_space["key"] must be a Kind']. *)
Definition double_quote : string :=
  String (Ascii.Ascii false true false false false true false false)
    EmptyString.

Definition search_space_message (key kind : string) : string :=
  String.append "search_space["
    (String.append double_quote
       (String.append key
          (String.append double_quote
             (String.append "] must be a " kind)))).

(** [search_alg == "optuna"] *)
Definition is_optuna (search_alg : option string) : bool :=
  match search_alg with
  | Some alg => String.eqb alg "optuna"
  | None => false
  end.

(** The [try] block of [parallel] with its [finally]. *)
Definition parallel_try (experiment_checkpoint_path : string)
    (args : TuneArgs) : outcome ExperimentAnalysis * list RayEvent :=
  if negb (String.eqb experiment_checkpoint_path "") then
    (load_experiment experiment_checkpoint_path,
     [LoadExperiment experiment_checkpoint_path; RayShutdown])
  else
    (tune_run args, [TuneRun args; RayShutdown]).

(** [parallel]: the result, and the calls made to Ray in order. *)
Definition parallel (sacred_ex_name run_name : string) (num_samples : Z)
    (search_space : kwargs) (base_named_configs base_config_updates : pyvalue)
    (resources_per_trial init_kwargs : kwargs)
    (local_dir upload_dir : option string) (repeat : Z)
    (search_alg : option string) (experiment_checkpoint_path : string)
    (syncer : pyvalue) : outcome ExperimentAnalysis * list RayEvent :=
  if negb (is_sequence base_named_configs) then
    (Raises (PyTypeError "base_named_configs must be a Sequence"), [])
  else if negb (is_mapping base_config_updates) then
    (Raises (PyTypeError "base_config_updates must be a Mapping"), [])
  else
    match search_space !! "named_configs" with
    | None => (Raises (PyKeyError "named_configs"), [])
    | Some search_named_configs =>
        if negb (is_sequence search_named_configs) then
          (Raises (PyTypeError
             (search_space_message "named_configs" "Sequence")), [])
        else
          match search_space !! "config_updates" with
          | None => (Raises (PyKeyError "config_updates"), [])
          | Some search_config_updates =>
              if negb (is_mapping search_config_updates) then
                (Raises (PyTypeError
                   (search_space_message "config_updates" "Mapping")), [])
              else
                let trainable :=
                  _ray_tune_sacred_wrapper sacred_ex_name run_name
                    (list_of_sequence base_named_configs)
                    (dict_of_mapping base_config_updates) in
                match ray_init init_kwargs with
                | Raises e => (Raises e, [RayInit init_kwargs])
                | Returns _ =>
                    let return_key :=
                      if String.eqb sacred_ex_name "train_rl"
                      then "monitor_return_mean"
                      else "imit_stats/monitor_return_mean" in
                    let run algo :=
                      let '(result, events) :=
                        parallel_try experiment_checkpoint_path
                          {| tune_trainable := trainable;
                             tune_config := search_space;
                             tune_num_samples := num_samples * repeat;
                             tune_name := run_name;
                             tune_local_dir := local_dir;
                             tune_resources_per_trial := resources_per_trial;
                             tune_upload_dir := upload_dir;
                             tune_syncer := syncer;
                             tune_search_alg := algo;
                             tune_metric := return_key;
                             tune_mode := "max" |} in
                      (result, events) in
                    if is_optuna search_alg then
                        match optuna_repeater repeat with
                        | Raises e =>
                            (Raises e,
                             [RayInit init_kwargs; OptunaRepeater repeat])
                        | Returns _ =>
                            let '(result, events) := run (Some repeat) in
                            (result,
                             RayInit init_kwargs :: OptunaRepeater repeat
                               :: events)
                        end
                    else
                        if Z.eqb repeat 1 then
                          let '(result, events) := run None in
                          (result, RayInit init_kwargs :: events)
                        else (Raises PyAssertionError, [RayInit init_kwargs])
                end
          end
    end.

End Parallel.

(** A world for the closed examples: every call to Ray succeeds, and an
    experiment completes and returns the config updates it was given. *)
#[export] Instance ExampleRay : RayWorld := {|
  ExperimentAnalysis := string;
  ray_init := fun _ => Returns tt;
  optuna_repeater := fun _ => Returns tt;
  load_experiment := fun path => Returns path;
  tune_run := fun args => Returns (tune_metric args);
  ex_run := fun name run_kwargs options =>
    Returns {| status := "COMPLETED";
               run_result := default PNone (run_kwargs !! "config_updates") |}
|}.

Definition example_trainable : Trainable :=
  _ray_tune_sacred_wrapper "train_rl" "demo" [PStr "base"]
    (<["lr" := PInt 0]> (<["seed" := PInt 0]> (<["gamma" := PInt 9]> ∅))).

Definition example_search_space : kwargs :=
  <["named_configs" := PList [PStr "fast"]]>
    (<["config_updates" := PDict (<["lr" := PInt 1]> ∅)]> ∅).

(** The config of the trial of index 3. *)
Definition example_trial : TrialState :=
  {| capture_mode := "fd";
     config := <["__trial_index__" := PInt 3]> example_search_space |}.

(** * Properties *)

(** ** The order on binary64 *)

Section Binary64Order.






Lemma leb_compare x y :
  (x <=? y) = true <->
  exists c, SFcompare (Prim2SF x) (Prim2SF y) = Some c /\ le_cmp c = true.
Proof.
  rewrite FloatAxioms.leb_spec. unfold SFleb.
  destruct (SFcompare _ _) as [[]|]; split;
    try (intros [c [E L]]; inversion E; subst; cbn in L);
    try congruence; intros _; eexists; split; reflexivity.
Qed.





End Binary64Order.

(** ** [IntervalParamScaler] *)

Section IntervalParamScalerProps.
Context {T : Torch}.

Lemma is_scalar_loss_false (loss : LossType) :
  is_scalar_loss loss = false <->
  exists t, loss = LTensor t /\ (0 < dim t)%nat.
Proof.
  destruct loss as [f|t]; cbn.
  - split; [discriminate | intros [t [E _]]; discriminate].
  - rewrite Nat.eqb_neq. split.
    + intros Hd. exists t. split; [reflexivity | lia].
    + intros [t' [E Hd]]. inversion E; subst. lia.
Qed.

(** Once both assertions pass and the division returns, the call is the
    three-way choice on the ratio. *)
Lemma IntervalParamScaler_call_ratio self lam train_loss val_loss ratio :
  is_scalar_loss train_loss = true -> is_scalar_loss val_loss = true ->
  py_truediv val_loss train_loss = Ok ratio ->
  IntervalParamScaler_call self lam train_loss val_loss =
    if loss_gt ratio (snd (tolerable_interval self)) then
      Ok (lam * (1 + scaling_factor self))
    else if loss_lt ratio (fst (tolerable_interval self)) then
      Ok (lam * (1 - scaling_factor self))
    else Ok lam.
Proof.
  intros Ht Hv Hr. unfold IntervalParamScaler_call.
  rewrite Hv, Ht, Hr. reflexivity.
Qed.



(** C7: the call raises [AssertionError] whenever val_loss or train_loss is
    a tensor of dimension greater than zero, whatever the other loss is and
    before any division is attempted; when both losses are floats or
    zero-dimensional tensors, no assertion fires. *)
Theorem IntervalParamScaler_call_asserts_scalars self lam :
  (forall t train_loss, (0 < dim t)%nat ->
     IntervalParamScaler_call self lam train_loss (LTensor t) =
       Raise AssertionError) /\
  (forall t val_loss, (0 < dim t)%nat ->
     IntervalParamScaler_call self lam (LTensor t) val_loss =
       Raise AssertionError) /\
  (forall train_loss val_loss,
     is_scalar_loss train_loss = true -> is_scalar_loss val_loss = true ->
     IntervalParamScaler_call self lam train_loss val_loss <>
       Raise AssertionError).
Proof.
  repeat split.
  - intros t train_loss Hd. unfold IntervalParamScaler_call. cbn.
    destruct (Nat.eqb_spec (dim t) 0); [lia | reflexivity].
  - intros t val_loss Hd. unfold IntervalParamScaler_call.
    destruct (is_scalar_loss val_loss); cbn; [|reflexivity].
    destruct (Nat.eqb_spec (dim t) 0); [lia | reflexivity].
  - intros train_loss val_loss Ht Hv. unfold IntervalParamScaler_call.
    rewrite Hv, Ht. cbn.
    destruct val_loss as [x|t], train_loss as [y|u]; cbn;
      try (unfold float_truediv; destruct (y =? 0); cbn; [discriminate|]);
      repeat match goal with
             | |- context [if ?b then _ else _] => destruct b
             end; discriminate.
Qed.

(** [ConstantParamScaler] returns its first argument for any losses. *)
Lemma ConstantParamScaler_call_id lam (train_loss val_loss : LossType) :
  ConstantParamScaler_call lam train_loss val_loss = Ok lam.
Proof. reflexivity. Qed.

End IntervalParamScalerProps.

(** The examples of the specification, on floats and on zero-dimensional
    tensors: interval (0.9, 1.1), scaling factor 0.1. *)
Example interval_ratio_above :
  IntervalParamScaler_call example_scaler 2 (LFloat 1) (LFloat 1.5)
    = Ok (2 * 1.1).
Proof. reflexivity. Qed.

Example interval_ratio_below :
  IntervalParamScaler_call example_scaler 2 (LFloat 1) (LFloat 0.5)
    = Ok (2 * 0.9).
Proof. reflexivity. Qed.

Example interval_ratio_inside :
  IntervalParamScaler_call example_scaler 2
    (LTensor (scalar_tensor 1)) (LTensor (scalar_tensor 1)) = Ok 2.
Proof. reflexivity. Qed.

Example interval_ratio_at_bounds :
  IntervalParamScaler_call example_scaler 2 (LFloat 1) (LFloat 1.1) = Ok 2 /\
  IntervalParamScaler_call example_scaler 2 (LFloat 1) (LFloat 0.9) = Ok 2.
Proof. split; reflexivity. Qed.

Example interval_non_scalar_loss :
  IntervalParamScaler_call example_scaler 2
    (LFloat 1) (LTensor (vector_tensor [1; 2])) = Raise AssertionError.
Proof. reflexivity. Qed.


(** With swapped bounds, low = 2 and high = 1, the first test that holds
    decides: a ratio of 1.5, above high and below low, is scaled up; a ratio
    of 1, equal to high and below low, is scaled down. *)
Lemma IntervalParamScaler_call_inverted_interval :
  py_truediv (LFloat 1) (LFloat 1) = Ok (LFloat 1) /\
  loss_eq (LFloat 1) (snd (tolerable_interval inverted_scaler)) = true /\
  IntervalParamScaler_call inverted_scaler 2 (LFloat 1) (LFloat 1)
    = Ok (2 * (1 - 0.1)) /\
  (2 * (1 - 0.1) =? 2) = false /\
  py_truediv (LFloat 1.5) (LFloat 1) = Ok (LFloat 1.5) /\
  loss_lt (LFloat 1.5) (fst (tolerable_interval inverted_scaler)) = true /\
  IntervalParamScaler_call inverted_scaler 2 (LFloat 1) (LFloat 1.5)
    = Ok (2 * (1 + 0.1)) /\
  (2 * (1 + 0.1) =? 2 * (1 - 0.1)) = false.
Proof. repeat split; reflexivity. Qed.

(** ** [Regularizer.update_params] *)

Section UpdateParamsProps.
Context {T : Torch}.

Lemma logger_records_app (self : Regularizer) (evs : list Event) tr :
  trace self = tr ++ evs ->
  logger_records self = List.filter is_record tr ++ List.filter is_record evs.
Proof. unfold logger_records. intros ->. apply List.filter_app. Qed.

(** The run of [update_params] under a strategy that is not the constant
    one: the strategy is invoked on the current lambda; what follows
    depends on whether it returns. *)
Lemma update_params_run (self : Regularizer) train_loss val_loss :
  isinstance_ConstantParamScaler (lambda_updater self) = false ->
  update_params train_loss val_loss self =
    match LambdaUpdater_call (lambda_updater self) (lambda_ self)
            train_loss val_loss with
    | Ok v =>
        (Ok PyNone,
         {| param_groups := param_groups self; lambda_ := v;
            lambda_updater := lambda_updater self;
            trace := (trace self ++ [EvUpdater (lambda_ self) train_loss val_loss])
                       ++ [EvRecord "regularization_lambda" v] |})
    | Raise e =>
        (Raise e,
         {| param_groups := param_groups self; lambda_ := lambda_ self;
            lambda_updater := lambda_updater self;
            trace := trace self ++ [EvUpdater (lambda_ self) train_loss val_loss] |})
    end.
Proof.
  intros Hc. unfold update_params, bind, get. rewrite Hc. cbn.
  destruct (LambdaUpdater_call _ _ _ _); reflexivity.
Qed.

(** C2: under a strategy that is not a [ConstantParamScaler], a call to
    [update_params] invokes the strategy once with (current lambda_,
    train_loss, val_loss), stores the value it returns in lambda_ and sends
    the logger exactly one new entry, key "regularization_lambda", carrying
    that value; under a [ConstantParamScaler] the call changes nothing: no
    invocation, same lambda_, and the logger keeps the single entry of the
    construction. *)
Theorem update_params_spec (self : Regularizer) train_loss val_loss :
  (forall v,
     isinstance_ConstantParamScaler (lambda_updater self) = false ->
     LambdaUpdater_call (lambda_updater self) (lambda_ self)
       train_loss val_loss = Ok v ->
     exists self',
       update_params train_loss val_loss self = (Ok PyNone, self') /\
       lambda_ self' = v /\
       trace self' =
         trace self ++ [EvUpdater (lambda_ self) train_loss val_loss;
                        EvRecord "regularization_lambda" v] /\
       logger_records self' =
         logger_records self ++ [EvRecord "regularization_lambda" v] /\
       param_groups self' = param_groups self /\
       lambda_updater self' = lambda_updater self) /\
  (isinstance_ConstantParamScaler (lambda_updater self) = true ->
     update_params train_loss val_loss self = (Ok PyNone, self)) /\
  (forall optimizer initial_lambda log,
     self = Regularizer_init optimizer initial_lambda Constant log ->
     logger_records (snd (update_params train_loss val_loss self)) =
       List.filter is_record log
         ++ [EvRecord "regularization_lambda" initial_lambda]).
Proof.
  repeat split.
  - intros v Hc Hv. rewrite (update_params_run _ _ _ Hc), Hv.
    eexists. split; [reflexivity|]. cbn.
    repeat split; try reflexivity.
    + rewrite <- app_assoc. reflexivity.
    + unfold logger_records. cbn. rewrite !List.filter_app. cbn.
      rewrite app_nil_r. reflexivity.
  - intros Hc. unfold update_params, bind, get. rewrite Hc. reflexivity.
  - intros optimizer initial_lambda log ->. cbn.
    unfold logger_records. cbn. rewrite List.filter_app. reflexivity.
Qed.

(** C9: under a strategy that is not a [ConstantParamScaler], when the
    strategy raises, [update_params] raises the same exception and leaves
    lambda_ at its prior value with no new logger entry; a float
    train_loss of zero makes [IntervalParamScaler] raise
    [ZeroDivisionError] on any float val_loss. *)
Theorem update_params_atomic_on_error (self : Regularizer)
    train_loss val_loss e :
  isinstance_ConstantParamScaler (lambda_updater self) = false ->
  LambdaUpdater_call (lambda_updater self) (lambda_ self)
    train_loss val_loss = Raise e ->
  (exists self',
     update_params train_loss val_loss self = (Raise e, self') /\
     lambda_ self' = lambda_ self /\
     logger_records self' = logger_records self /\
     param_groups self' = param_groups self /\
     lambda_updater self' = lambda_updater self) /\
  (forall s lam x,
     IntervalParamScaler_call s lam (LFloat 0) (LFloat x)
       = Raise ZeroDivisionError).
Proof.
  intros Hc He. split.
  - rewrite (update_params_run _ _ _ Hc), He.
    eexists. split; [reflexivity|]. cbn. repeat split.
    unfold logger_records. cbn. rewrite List.filter_app. cbn.
    apply app_nil_r.
  - intros s lam x. reflexivity.
Qed.

End UpdateParamsProps.

(** ** [LossRegularizer] and [LpRegularizer] *)

Section LossRegularizerProps.
Context {T : Torch}.

Context {L : TorchLinalg T}.

Lemma fold_left_groups {A} (step : A -> Param -> A)
    (groups : list ParamGroup) (acc : A) :
  fold_left (fun acc group => fold_left step (params group) acc) groups acc
  = fold_left step (all_params groups) acc.
Proof.
  revert acc. induction groups as [|g groups IH]; intros acc; cbn.
  - reflexivity.
  - unfold all_params in *. cbn. rewrite fold_left_app. apply IH.
Qed.

(** Once the first norm is on the accumulator, the loop adds the others
    with [th.add]. *)
Lemma fold_left_penalty_tensor (p : Z) (l : list Param) (acc : tensor) :
  fold_left (fun penalty param => penalty_add penalty (norm_pow p param))
    l (VTensor acc)
  = VTensor (fold_left th_add
               (List.map (lp_norm_power p) (List.map data l)) acc).
Proof.
  revert acc. induction l as [|x l IH]; intros acc; cbn; [reflexivity|].
  apply IH.
Qed.

Lemma LpRegularizer_regularize_loss_flat (p : Z) (self : Regularizer)
    (loss : tensor) :
  LpRegularizer_regularize_loss p self loss =
    spec_lp_penalty p (lambda_ self) (param_groups self).
Proof.
  unfold LpRegularizer_regularize_loss, spec_lp_penalty.
  rewrite (fold_left_groups
             (fun penalty param => penalty_add penalty (norm_pow p param))).
  destruct (all_params (param_groups self)) as [|w rest]; [reflexivity|].
  cbn [fold_left List.map tensor_sum]. unfold penalty_add at 2.
  rewrite fold_left_penalty_tensor. reflexivity.
Qed.

(** Two groups holding three parameters: the three norms are added in
    iteration order onto the initial 0 and the sum is scaled by lambda_. *)
Example LpRegularizer_three_params (p : Z) (a b c : Param) lam u tr
    (loss : tensor) :
  LpRegularizer_regularize_loss p
    {| param_groups := [ {| params := [a; b]; lr := 0.1 |};
                         {| params := [c]; lr := 0.2 |} ];
       lambda_ := lam; lambda_updater := u; trace := tr |} loss
  = VTensor (th_mul_scalar (SFloat lam)
       (th_add (th_add (th_add_scalar (th_pow (vector_norm (data a) p) p)
                                      (SInt 0))
                       (th_pow (vector_norm (data b) p) p))
               (th_pow (vector_norm (data c) p) p))).
Proof. reflexivity. Qed.

(** Without any parameter the penalty is the float [lam * 0]. *)
Example LpRegularizer_no_params (p : Z) lam u tr (loss : tensor) :
  LpRegularizer_regularize_loss p
    {| param_groups := [ {| params := []; lr := 0.1 |} ];
       lambda_ := lam; lambda_updater := u; trace := tr |} loss
  = VNum (SFloat (lam * 0)).
Proof. reflexivity. Qed.

End LossRegularizerProps.

(** ** [WeightRegularizer] and [WeightDecayRegularizer] *)

Section WeightRegularizerProps.
Context {T : Torch}.
Variable f : Regularizer -> Param -> ParamGroup -> pyval.

(** A loop whose body never raises is a fold of the body's effect. *)
Lemma for_each_run {A} (body : A -> M unit)
    (step : A -> Regularizer -> Regularizer) (l : list A) :
  (forall x s, body x s = (Ok tt, step x s)) ->
  forall s, for_each l body s = (Ok tt, fold_left (fun s x => step x s) l s).
Proof.
  intros Hbody. induction l as [|x l IH]; intros s; cbn.
  - reflexivity.
  - unfold bind. rewrite Hbody. apply IH.
Qed.

Lemma regularize_param_run gi pi s :
  regularize_param f gi pi s = (Ok tt, param_step f gi pi s).
Proof.
  unfold param_step, regularize_param, bind, get. cbn.
  destruct (param_groups s !! gi) as [g|]; [|reflexivity].
  destruct (params g !! pi); reflexivity.
Qed.

Lemma param_step_unfold gi pi s :
  param_step f gi pi s =
    match param_groups s !! gi with
    | Some g =>
        match params g !! pi with
        | Some w =>
            let v := th_add_val (data w) (f s w g) in
            {| param_groups := write_data gi pi v (param_groups s);
               lambda_ := lambda_ s; lambda_updater := lambda_updater s;
               trace := trace s ++ [EvSetData gi pi v] |}
        | None => s
        end
    | None => s
    end.
Proof.
  unfold param_step, regularize_param, bind, get. cbn.
  destruct (param_groups s !! gi) as [g|]; [|reflexivity].
  destruct (params g !! pi); reflexivity.
Qed.

Lemma regularize_group_run gi s :
  regularize_group f gi s = (Ok tt, group_step f gi s).
Proof.
  unfold group_step, regularize_group, bind, get. cbn.
  destruct (param_groups s !! gi) as [g|]; [|reflexivity].
  rewrite (for_each_run _ (param_step f gi)); [reflexivity|].
  intros x s'. apply regularize_param_run.
Qed.

Lemma group_step_unfold gi s :
  group_step f gi s =
    match param_groups s !! gi with
    | Some g =>
        fold_left (fun s pi => param_step f gi pi s)
          (seq 0 (length (params g))) s
    | None => s
    end.
Proof.
  unfold group_step, regularize_group, bind, get. cbn.
  destruct (param_groups s !! gi) as [g|]; [|reflexivity].
  rewrite (for_each_run _ (param_step f gi)); [reflexivity|].
  intros x s'. apply regularize_param_run.
Qed.

(** *** What a write changes *)

Lemma write_data_lookup_ne gi pi v groups a :
  a <> gi -> write_data gi pi v groups !! a = groups !! a.
Proof.
  intros Hne. unfold write_data.
  destruct (groups !! gi); [|reflexivity].
  apply list_lookup_insert_ne. congruence.
Qed.

Lemma write_data_lookup_eq gi pi v groups g :
  groups !! gi = Some g ->
  write_data gi pi v groups !! gi =
    Some {| params := <[pi := {| data := v |}]> (params g); lr := lr g |}.
Proof.
  intros Hg. unfold write_data. rewrite Hg.
  apply list_lookup_insert_eq. eapply lookup_lt_Some, Hg.
Qed.

Lemma write_data_lr gi pi v groups :
  lr <$> write_data gi pi v groups = lr <$> groups.
Proof.
  unfold write_data. destruct (groups !! gi) as [g|] eqn:Hg; [|reflexivity].
  rewrite list_fmap_insert. cbn. apply list_insert_id.
  rewrite list_lookup_fmap, Hg. reflexivity.
Qed.

Lemma write_data_lengths gi pi v groups :
  (fun g => length (params g)) <$> write_data gi pi v groups
  = (fun g => length (params g)) <$> groups.
Proof.
  unfold write_data. destruct (groups !! gi) as [g|] eqn:Hg; [|reflexivity].
  rewrite list_fmap_insert. cbn. rewrite length_insert. apply list_insert_id.
  rewrite list_lookup_fmap, Hg. reflexivity.
Qed.

Lemma same_frame_refl s : same_frame s s.
Proof. repeat split. Qed.

Lemma same_frame_lookup s0 s gi g0 :
  same_frame s0 s -> param_groups s0 !! gi = Some g0 ->
  exists g, param_groups s !! gi = Some g /\ lr g = lr g0 /\
            length (params g) = length (params g0).
Proof.
  intros (_ & _ & Hlr & Hlen) Hg0.
  assert (H1 : (lr <$> param_groups s) !! gi = Some (lr g0))
    by (rewrite Hlr, list_lookup_fmap, Hg0; reflexivity).
  assert (H2 : ((fun g => length (params g)) <$> param_groups s) !! gi
               = Some (length (params g0)))
    by (rewrite Hlen, list_lookup_fmap, Hg0; reflexivity).
  rewrite list_lookup_fmap in H1. rewrite list_lookup_fmap in H2.
  destruct (param_groups s !! gi) as [g|]; [|discriminate].
  cbn in H1, H2. exists g. repeat split; congruence.
Qed.

Lemma same_frame_length s0 s :
  same_frame s0 s -> length (param_groups s) = length (param_groups s0).
Proof.
  intros (_ & _ & Hlr & _).
  rewrite <- (length_fmap lr (param_groups s)), Hlr. apply length_fmap.
Qed.

(** *** One parameter *)

Lemma param_step_frame s0 gi pi s :
  same_frame s0 s -> same_frame s0 (param_step f gi pi s).
Proof.
  intros Hf. rewrite param_step_unfold.
  destruct (param_groups s !! gi) as [g|]; [|exact Hf].
  destruct (params g !! pi) as [w|]; [|exact Hf].
  destruct Hf as (H1 & H2 & H3 & H4). repeat split; cbn.
  - exact H1.
  - exact H2.
  - rewrite write_data_lr. exact H3.
  - rewrite write_data_lengths. exact H4.
Qed.

Lemma param_step_trace gi pi s g w :
  param_groups s !! gi = Some g -> params g !! pi = Some w ->
  trace (param_step f gi pi s) =
    trace s ++ [EvSetData gi pi (th_add_val (data w) (f s w g))].
Proof. intros Hg Hw. rewrite param_step_unfold, Hg, Hw. reflexivity. Qed.

Lemma param_step_other gi pi s a b :
  (gi, pi) <> (a, b) ->
  param_at (param_step f gi pi s) a b = param_at s a b.
Proof.
  intros Hne. rewrite param_step_unfold.
  destruct (param_groups s !! gi) as [g|] eqn:Hg; [|reflexivity].
  destruct (params g !! pi) as [w|] eqn:Hw; [|reflexivity].
  unfold param_at. cbn.
  destruct (decide (a = gi)) as [->|Ha].
  - rewrite (write_data_lookup_eq _ _ _ _ _ Hg), Hg. cbn.
    apply list_lookup_insert_ne. congruence.
  - rewrite write_data_lookup_ne by exact Ha. reflexivity.
Qed.

Lemma param_step_at a b s g w :
  param_groups s !! a = Some g -> params g !! b = Some w ->
  param_at (param_step f a b s) a b =
    Some {| data := th_add_val (data w) (f s w g) |}.
Proof.
  intros Hg Hw. rewrite param_step_unfold, Hg, Hw. unfold param_at. cbn.
  rewrite (write_data_lookup_eq _ _ _ _ _ Hg). cbn.
  apply list_lookup_insert_eq. eapply lookup_lt_Some, Hw.
Qed.

(** *** The inner loop *)

Local Abbreviation inner gi := (fold_left (fun s pi => param_step f gi pi s)).
Local Abbreviation outer := (fold_left (fun s gi => group_step f gi s)).

Lemma inner_frame s0 gi l :
  forall s, same_frame s0 s -> same_frame s0 (inner gi l s).
Proof.
  induction l as [|pi l IH]; intros s Hf; cbn; [exact Hf|].
  apply IH, param_step_frame, Hf.
Qed.

Lemma inner_other gi l a b :
  Forall (fun pi => (gi, pi) <> (a, b)) l ->
  forall s, param_at (inner gi l s) a b = param_at s a b.
Proof.
  induction 1 as [|pi l Hpi _ IH]; intros s; cbn; [reflexivity|].
  rewrite IH. apply param_step_other, Hpi.
Qed.

Lemma inner_trace s0 gi g0 l :
  param_groups s0 !! gi = Some g0 ->
  Forall (fun pi => (pi < length (params g0))%nat) l ->
  forall s, same_frame s0 s ->
  exists evs,
    trace (inner gi l s) = trace s ++ evs /\
    List.map event_position evs = List.map (fun pi => Some (gi, pi)) l.
Proof.
  intros Hg0. induction 1 as [|pi l Hpi _ IH]; intros s Hf; cbn.
  - exists []. split; [symmetry; apply app_nil_r | reflexivity].
  - destruct (same_frame_lookup _ _ _ _ Hf Hg0) as (g & Hg & _ & Hlen).
    destruct (lookup_lt_is_Some_2 (params g) pi) as [w Hw]; [lia|].
    destruct (IH (param_step f gi pi s)) as (evs & Htr & Hpos).
    { apply param_step_frame, Hf. }
    rewrite (param_step_trace _ _ _ _ _ Hg Hw) in Htr.
    eexists (_ :: evs). split.
    + rewrite Htr, <- app_assoc. reflexivity.
    + cbn. rewrite Hpos. reflexivity.
Qed.

(** *** One group *)

Lemma group_step_frame s0 gi s :
  same_frame s0 s -> same_frame s0 (group_step f gi s).
Proof.
  intros Hf. rewrite group_step_unfold.
  destruct (param_groups s !! gi); [apply inner_frame|]; exact Hf.
Qed.

Lemma group_step_other gi s a b :
  gi <> a -> param_at (group_step f gi s) a b = param_at s a b.
Proof.
  intros Hne. rewrite group_step_unfold.
  destruct (param_groups s !! gi); [|reflexivity].
  apply inner_other, Forall_forall. intros pi _. congruence.
Qed.

Lemma group_step_trace s0 gi s :
  same_frame s0 s ->
  exists evs,
    trace (group_step f gi s) = trace s ++ evs /\
    List.map event_position evs
      = List.map Some (positions_of (param_groups s0) gi).
Proof.
  intros Hf. rewrite group_step_unfold. unfold positions_of.
  destruct (param_groups s0 !! gi) as [g0|] eqn:Hg0.
  - destruct (same_frame_lookup _ _ _ _ Hf Hg0) as (g & Hg & _ & Hlen).
    rewrite Hg, Hlen.
    destruct (inner_trace s0 gi g0 (seq 0 (length (params g0))) Hg0)
      with (s := s) as (evs & Htr & Hpos); [|exact Hf|].
    { apply Forall_seq. intros; lia. }
    exists evs. split; [exact Htr|].
    rewrite Hpos. unfold group_positions. rewrite List.map_map. reflexivity.
  - apply lookup_ge_None in Hg0.
    rewrite <- (same_frame_length _ _ Hf) in Hg0.
    apply lookup_ge_None in Hg0. rewrite Hg0.
    exists []. split; [symmetry; apply app_nil_r | reflexivity].
Qed.

(** The parameter at position (a, b) is handed to the penalty method
    unchanged, with the group it sits in, and receives the delta. *)
Lemma group_step_at s0 s a b g0 w :
  same_frame s0 s -> param_groups s0 !! a = Some g0 ->
  (b < length (params g0))%nat -> param_at s a b = Some w ->
  exists mid gm,
    same_frame s0 mid /\ param_groups mid !! a = Some gm /\
    params gm !! b = Some w /\
    param_at (group_step f a s) a b =
      Some {| data := th_add_val (data w) (f mid w gm) |}.
Proof.
  intros Hf Hg0 Hb Hw. rewrite group_step_unfold.
  destruct (same_frame_lookup _ _ _ _ Hf Hg0) as (g & Hg & _ & Hlen).
  rewrite Hg, Hlen.
  replace (length (params g0)) with (b + S (length (params g0) - S b))%nat
    by lia.
  rewrite List.seq_app, fold_left_app. cbn [seq fold_left Nat.add].
  set (mid := inner a (seq 0 b) s).
  assert (Hmid : param_at mid a b = Some w).
  { unfold mid. rewrite inner_other; [exact Hw|].
    apply Forall_seq. intros pi Hpi E. inversion E. lia. }
  assert (Hfm : same_frame s0 mid) by (apply inner_frame, Hf).
  unfold param_at in Hmid.
  destruct (param_groups mid !! a) as [gm|] eqn:Hgm; [|discriminate].
  exists mid, gm.
  split; [exact Hfm | split; [exact Hgm | split; [exact Hmid|]]].
  rewrite inner_other; [apply param_step_at; assumption|].
  apply Forall_seq. intros pi Hpi E. inversion E. lia.
Qed.

(** *** The outer loop *)

Lemma outer_frame s0 gis :
  forall s, same_frame s0 s -> same_frame s0 (outer gis s).
Proof.
  induction gis as [|gi gis IH]; intros s Hf; cbn; [exact Hf|].
  apply IH, group_step_frame, Hf.
Qed.

Lemma outer_other gis a b :
  Forall (fun gi => gi <> a) gis ->
  forall s, param_at (outer gis s) a b = param_at s a b.
Proof.
  induction 1 as [|gi gis Hgi _ IH]; intros s; cbn; [reflexivity|].
  rewrite IH. apply group_step_other, Hgi.
Qed.

Lemma outer_trace s0 gis :
  forall s, same_frame s0 s ->
  exists evs,
    trace (outer gis s) = trace s ++ evs /\
    List.map event_position evs
      = List.map Some (flat_map (positions_of (param_groups s0)) gis).
Proof.
  induction gis as [|gi gis IH]; intros s Hf; cbn.
  - exists []. split; [symmetry; apply app_nil_r | reflexivity].
  - destruct (group_step_trace s0 gi s Hf) as (evs1 & Htr1 & Hpos1).
    destruct (IH (group_step f gi s)) as (evs2 & Htr2 & Hpos2).
    { apply group_step_frame, Hf. }
    exists (evs1 ++ evs2). split.
    + rewrite Htr2, Htr1, <- app_assoc. reflexivity.
    + rewrite !List.map_app, Hpos1, Hpos2. reflexivity.
Qed.

Lemma outer_at s0 a b g0 w :
  param_groups s0 !! a = Some g0 -> params g0 !! b = Some w ->
  forall s, same_frame s0 s -> param_at s a b = Some w ->
  exists mid gm,
    same_frame s0 mid /\ param_groups mid !! a = Some gm /\
    params gm !! b = Some w /\
    param_at (outer (seq 0 (length (param_groups s0))) s) a b =
      Some {| data := th_add_val (data w) (f mid w gm) |}.
Proof.
  intros Hg0 Hw0 s Hf Hw.
  pose proof (lookup_lt_Some _ _ _ Hg0) as Ha.
  pose proof (lookup_lt_Some _ _ _ Hw0) as Hb.
  replace (length (param_groups s0))
    with (a + S (length (param_groups s0) - S a))%nat by lia.
  rewrite List.seq_app, fold_left_app. cbn [seq fold_left Nat.add].
  set (s1 := outer (seq 0 a) s).
  assert (Hf1 : same_frame s0 s1) by (apply outer_frame, Hf).
  assert (Hw1 : param_at s1 a b = Some w).
  { unfold s1. rewrite outer_other; [exact Hw|].
    apply Forall_seq. intros gi Hgi. lia. }
  destruct (group_step_at s0 s1 a b g0 w Hf1 Hg0 Hb Hw1)
    as (mid & gm & Hfm & Hgm & Hwm & Hat).
  exists mid, gm.
  split; [exact Hfm | split; [exact Hgm | split; [exact Hwm|]]].
  rewrite outer_other; [exact Hat|].
  apply Forall_seq. intros gi Hgi. lia.
Qed.

(** *** The whole method *)

Lemma WeightRegularizer_regularize_run loss self :
  WeightRegularizer_regularize f loss self =
    (Ok PyNone,
     outer (seq 0 (length (param_groups self)))
       {| param_groups := param_groups self; lambda_ := lambda_ self;
          lambda_updater := lambda_updater self;
          trace := trace self ++ [EvBackward loss] |}).
Proof.
  unfold WeightRegularizer_regularize, bind, backward, emit, get. cbn.
  rewrite (for_each_run _ (group_step f)); [reflexivity|].
  intros gi s. apply regularize_group_run.
Qed.

Lemma set_data_events_not_records (evs : list Event) l :
  List.map event_position evs = List.map Some l ->
  List.filter is_record evs = [].
Proof.
  revert l. induction evs as [|e evs IH]; intros l Hl; [reflexivity|].
  destruct l as [|x l]; [discriminate|]. cbn in Hl.
  injection Hl as He Hl. destruct e; try discriminate. cbn. eapply IH, Hl.
Qed.

Lemma WeightRegularizer_regularize_general loss self :
  exists self' evs,
    WeightRegularizer_regularize f loss self = (Ok PyNone, self') /\
    trace self' = trace self ++ EvBackward loss :: evs /\
    List.map event_position evs
      = List.map Some (all_positions (param_groups self)) /\
    logger_records self' = logger_records self /\
    same_frame self self' /\
    (forall gi pi group param,
       param_groups self !! gi = Some group ->
       params group !! pi = Some param ->
       exists mid group_mid,
         same_frame self mid /\
         param_groups mid !! gi = Some group_mid /\
         params group_mid !! pi = Some param /\
         param_at self' gi pi =
           Some {| data := th_add_val (data param)
                             (f mid param group_mid) |}).
Proof.
  rewrite WeightRegularizer_regularize_run.
  set (s1 := {| param_groups := param_groups self; lambda_ := lambda_ self;
                lambda_updater := lambda_updater self;
                trace := trace self ++ [EvBackward loss] |}).
  assert (Hf1 : same_frame self s1) by (repeat split).
  destruct (outer_trace self (seq 0 (length (param_groups self))) s1 Hf1)
    as (evs & Htr & Hpos).
  eexists. exists evs. split; [reflexivity|].
  assert (Htr' : trace (outer (seq 0 (length (param_groups self))) s1)
                 = trace self ++ EvBackward loss :: evs).
  { rewrite Htr. cbn. rewrite <- app_assoc. reflexivity. }
  split; [exact Htr'|]. split; [exact Hpos|]. split; [|split].
  - rewrite (logger_records_app _ _ _ Htr'). cbn.
    rewrite (set_data_events_not_records _ _ Hpos). apply app_nil_r.
  - apply outer_frame, Hf1.
  - intros gi pi group param Hg Hw.
    destruct (outer_at self gi pi group param Hg Hw s1 Hf1)
      as (mid & gm & Hfm & Hgm & Hwm & Hat).
    { unfold param_at. cbn. rewrite Hg. exact Hw. }
    exists mid, gm. auto.
Qed.

(** Under weight decay every parameter receives
    [-lambda_ * lr * data], with the [lr] of its own group. *)
Lemma WeightDecayRegularizer_regularize_general
    loss self gi pi group param :
  f = WeightDecayRegularizer_regularize_weight ->
  param_groups self !! gi = Some group ->
  params group !! pi = Some param ->
  param_at (snd (WeightRegularizer_regularize f loss self)) gi pi =
    Some {| data := th_add (data param)
                      (th_mul_scalar (SFloat (- lambda_ self * lr group))
                         (data param)) |}.
Proof.
  intros Hwd Hg Hw.
  destruct (WeightRegularizer_regularize_general loss self)
    as (self' & evs & Hrun & _ & _ & _ & _ & Hat).
  rewrite Hrun. cbn [snd].
  destruct (Hat gi pi group param Hg Hw) as (mid & gm & Hfm & Hgm & _ & ->).
  destruct (same_frame_lookup _ _ _ _ Hfm Hg) as (g & Hg' & Hlr & _).
  rewrite Hgm in Hg'. injection Hg' as <-.
  destruct Hfm as (Hlam & _). subst f.
  unfold WeightDecayRegularizer_regularize_weight. cbn.
  rewrite Hlam, Hlr. reflexivity.
Qed.

End WeightRegularizerProps.

(** ** The two families and the lambda_ field *)

(** C6: for every loss and every penalty method, [WeightRegularizer.regularize]
    first runs the backward pass on the loss it was given, and only then
    writes the parameters: every parameter of every group, once, in order,
    none skipped, each receiving its own data plus
    _regularize_weight(param, group), where param is still unmodified and
    group is the group it sits in; the logger receives nothing.  In the
    scenario (one group, lr 0.1, one parameter 2.0, weight decay, lambda
    0.5) the delta is -0.5 * 0.1 * 2.0 = -0.1. *)
Theorem WeightRegularizer_regularize_spec :
  (forall (T : Torch) (f : Regularizer -> Param -> ParamGroup -> pyval)
          (loss : tensor) (self : Regularizer),
     exists self' evs,
       WeightRegularizer_regularize f loss self = (Ok PyNone, self') /\
       trace self' = trace self ++ EvBackward loss :: evs /\
       List.map event_position evs
         = List.map Some (all_positions (param_groups self)) /\
       logger_records self' = logger_records self /\
       same_frame self self' /\
       (forall gi pi group param,
          param_groups self !! gi = Some group ->
          params group !! pi = Some param ->
          exists mid group_mid,
            same_frame self mid /\
            param_groups mid !! gi = Some group_mid /\
            params group_mid !! pi = Some param /\
            param_at self' gi pi =
              Some {| data := th_add_val (data param)
                                (f mid param group_mid) |})) /\
  (forall (T : Torch) (loss : tensor) (self : Regularizer)
          gi pi group param,
     param_groups self !! gi = Some group ->
     params group !! pi = Some param ->
     param_at (snd (WeightDecayRegularizer_regularize loss self)) gi pi =
       Some {| data := th_add (data param)
                         (th_mul_scalar (SFloat (- lambda_ self * lr group))
                            (data param)) |}) /\
  WeightDecayRegularizer_regularize_weight
    scenario_regularizer scenario_param scenario_group
    = VTensor (vector_tensor [-0.1]) /\
  - 0.5 * 0.1 * 2 = -0.1 /\
  WeightDecayRegularizer_regularize scenario_loss scenario_regularizer =
    (Ok PyNone,
     {| param_groups :=
          [ {| params := [ {| data := vector_tensor [2 + -0.1] |} ];
               lr := 0.1 |} ];
        lambda_ := 0.5; lambda_updater := Constant;
        trace := [ EvRecord "regularization_lambda" 0.5;
                   EvBackward scenario_loss;
                   EvSetData 0 0 (vector_tensor [2 + -0.1]) ] |}).
Proof.
  split; [|split; [|repeat split]].
  - intros T f loss self. apply WeightRegularizer_regularize_general.
  - intros T loss self gi pi group param Hg Hw.
    apply (WeightDecayRegularizer_regularize_general
             WeightDecayRegularizer_regularize_weight);
      [reflexivity | exact Hg | exact Hw].
Qed.

(** C10: for every loss, [WeightRegularizer.regularize] returns None,
    whereas [LossRegularizer.regularize] returns the combined loss. *)
Theorem WeightRegularizer_regularize_returns_None {T : Torch}
    (fw : Regularizer -> Param -> ParamGroup -> pyval)
    (fl : Regularizer -> tensor -> pyval)
    (loss : tensor) (self : Regularizer) :
  fst (WeightRegularizer_regularize fw loss self) = Ok PyNone /\
  fst (LossRegularizer_regularize fl loss self)
    = Ok (PyTensor (th_add_val loss (fl self loss))).
Proof.
  split.
  - rewrite WeightRegularizer_regularize_run. reflexivity.
  - reflexivity.
Qed.

(** C4 (as amended): for every weight and every group,
    [WeightDecayRegularizer._regularize_weight] is
    -lambda_ * group["lr"] * weight.data, the learning rate being that of
    the group passed with the weight: groups of equal learning rate give
    equal deltas, and groups of distinct learning rates can give distinct
    deltas for equal weights, as 0.1 and 0.2 do for lambda 0.5 and weight
    2.0 (-0.1 and -0.2). *)
Theorem WeightDecayRegularizer_regularize_weight_spec :
  (forall (T : Torch) (self : Regularizer) (weight : Param)
          (group : ParamGroup),
     WeightDecayRegularizer_regularize_weight self weight group =
       VTensor (th_mul_scalar (SFloat (- lambda_ self * lr group))
                  (data weight))) /\
  (forall (T : Torch) (self : Regularizer) (weight : Param)
          (group group' : ParamGroup),
     lr group = lr group' ->
     WeightDecayRegularizer_regularize_weight self weight group =
       WeightDecayRegularizer_regularize_weight self weight group') /\
  WeightDecayRegularizer_regularize_weight
    scenario_regularizer scenario_param scenario_group
    = VTensor (vector_tensor [-0.1]) /\
  WeightDecayRegularizer_regularize_weight
    scenario_regularizer scenario_param scenario_group_2
    = VTensor (vector_tensor [-0.2]) /\
  (-0.1 =? -0.2) = false.
Proof.
  repeat split.
  intros T self weight group group' Hlr.
  unfold WeightDecayRegularizer_regularize_weight. rewrite Hlr. reflexivity.
Qed.

(** C4 (as stated) fails: with lambda 0 the groups of learning rates 0.1
    and 0.2 give the same delta for the same weight. *)
Lemma WeightDecayRegularizer_same_delta_distinct_lr :
  (lr scenario_group =? lr scenario_group_2) = false /\
  WeightDecayRegularizer_regularize_weight
    zero_lambda_regularizer scenario_param scenario_group =
  WeightDecayRegularizer_regularize_weight
    zero_lambda_regularizer scenario_param scenario_group_2.
Proof. split; reflexivity. Qed.

(** C8 (as amended): lambda_ is set by the constructor and afterwards
    changes only through [update_params]: [regularize] of the loss family
    and of the weight family leave it as it is, for every penalty method
    (which returns a value and writes nothing), and [update_params] stores
    what the strategy returns, or keeps lambda_ when the strategy is
    constant or raises.  Finiteness is not part of the invariant. *)
Theorem lambda_changes_only_in_update_params {T : Torch}
    (fl : Regularizer -> tensor -> pyval)
    (fw : Regularizer -> Param -> ParamGroup -> pyval)
    (loss : tensor) (train_loss val_loss : LossType) (self : Regularizer) :
  lambda_ (snd (LossRegularizer_regularize fl loss self)) = lambda_ self /\
  lambda_ (snd (WeightRegularizer_regularize fw loss self)) = lambda_ self /\
  lambda_ (snd (WeightDecayRegularizer_regularize loss self))
    = lambda_ self /\
  (forall (L : TorchLinalg T) p,
     lambda_ (snd (LpRegularizer_regularize p loss self)) = lambda_ self) /\
  (isinstance_ConstantParamScaler (lambda_updater self) = true ->
     lambda_ (snd (update_params train_loss val_loss self)) = lambda_ self) /\
  (forall v,
     isinstance_ConstantParamScaler (lambda_updater self) = false ->
     LambdaUpdater_call (lambda_updater self) (lambda_ self)
       train_loss val_loss = Ok v ->
     lambda_ (snd (update_params train_loss val_loss self)) = v) /\
  (forall e,
     isinstance_ConstantParamScaler (lambda_updater self) = false ->
     LambdaUpdater_call (lambda_updater self) (lambda_ self)
       train_loss val_loss = Raise e ->
     lambda_ (snd (update_params train_loss val_loss self)) = lambda_ self) /\
  (forall optimizer initial_lambda updater log,
     lambda_ (Regularizer_init optimizer initial_lambda updater log)
       = initial_lambda).
Proof.
  assert (Hw : forall f,
             lambda_ (snd (WeightRegularizer_regularize f loss self))
               = lambda_ self).
  { intros f.
    destruct (WeightRegularizer_regularize_general f loss self)
      as (self' & evs & -> & _ & _ & _ & (Hlam & _) & _).
    exact Hlam. }
  split; [reflexivity|]. split; [apply Hw|]. split; [apply Hw|].
  split; [reflexivity|]. split; [|split; [|split]].
  - intros Hc. unfold update_params, bind, get. rewrite Hc. reflexivity.
  - intros v Hc Hv. rewrite (update_params_run _ _ _ Hc), Hv. reflexivity.
  - intros e Hc He. rewrite (update_params_run _ _ _ Hc), He. reflexivity.
  - reflexivity.
Qed.

(** C8 (as stated) fails on finiteness: from the finite lambda 1e308, the
    finite scaling factor 1 and the finite losses 1 and 2, one call to
    [update_params] stores an infinite lambda_. *)
Lemma lambda_not_always_finite :
  is_finite (lambda_ overflow_regularizer) = true /\
  is_finite (scaling_factor overflow_scaler) = true /\
  update_params (LFloat 1) (LFloat 2) overflow_regularizer =
    (Ok PyNone,
     {| param_groups := [scenario_group]; lambda_ := infinity;
        lambda_updater := Interval overflow_scaler;
        trace := [ EvRecord "regularization_lambda" 1e308;
                   EvUpdater 1e308 (LFloat 1) (LFloat 2);
                   EvRecord "regularization_lambda" infinity ] |}) /\
  is_finite infinity = false.
Proof. repeat split. Qed.

(** ** Closed instances *)

Lemma update_params_spec_witness :
  exists self',
    update_params (LFloat 1) (LFloat 1.5) adaptive_regularizer
      = (Ok PyNone, self') /\
    lambda_ self' = 1 * (1 + 0.1) /\
    logger_records self' =
      [ EvRecord "regularization_lambda" 1;
        EvRecord "regularization_lambda" (1 * (1 + 0.1)) ].
Proof.
  destruct (proj1 (update_params_spec adaptive_regularizer
                     (LFloat 1) (LFloat 1.5))
              (1 * (1 + 0.1)) eq_refl eq_refl)
    as (self' & Hrun & Hlam & _ & Hlog & _).
  exists self'. split; [exact Hrun|]. split; [exact Hlam|]. exact Hlog.
Defined.

Lemma update_params_atomic_on_error_witness :
  exists self',
    update_params (LFloat 0) (LFloat 1) adaptive_regularizer
      = (Raise ZeroDivisionError, self') /\
    lambda_ self' = 1 /\
    logger_records self' = [ EvRecord "regularization_lambda" 1 ].
Proof.
  destruct (proj1 (update_params_atomic_on_error adaptive_regularizer
                     (LFloat 0) (LFloat 1) ZeroDivisionError
                     eq_refl eq_refl))
    as (self' & Hrun & Hlam & Hlog & _).
  exists self'. split; [exact Hrun|]. split; [exact Hlam|]. exact Hlog.
Defined.

(** * Further properties of the regularization module *)

Section IntervalParamScalerEdges.
Context {T : Torch}.

(** [IntervalParamScaler.__call__] raises [ZeroDivisionError] exactly when
    both losses are Python floats and train_loss is zero (of either sign);
    as soon as one loss is a tensor the division is torch's and does not
    raise. *)
Theorem IntervalParamScaler_call_zero_division
    self lam (train_loss val_loss : LossType) :
  IntervalParamScaler_call self lam train_loss val_loss
    = Raise ZeroDivisionError <->
  exists x y,
    val_loss = LFloat x /\ train_loss = LFloat y /\ (y =? 0) = true.
Proof.
  unfold IntervalParamScaler_call. split.
  - destruct val_loss as [x|t], train_loss as [y|u]; cbn.
    + unfold float_truediv. destruct (y =? 0) eqn:Hy; cbn.
      * intros _. exists x, y. auto.
      * repeat match goal with
               | |- context [if ?b then _ else _] => destruct b
               end; discriminate.
    + destruct (Nat.eqb (dim u) 0); cbn; [|discriminate].
      repeat match goal with
             | |- context [if ?b then _ else _] => destruct b
             end; discriminate.
    + destruct (Nat.eqb (dim t) 0); cbn; [|discriminate].
      repeat match goal with
             | |- context [if ?b then _ else _] => destruct b
             end; discriminate.
    + destruct (Nat.eqb (dim t) 0); cbn; [|discriminate].
      destruct (Nat.eqb (dim u) 0); cbn; [|discriminate].
      repeat match goal with
             | |- context [if ?b then _ else _] => destruct b
             end; discriminate.
  - intros (x & y & -> & -> & Hy). cbn. unfold float_truediv.
    rewrite Hy. reflexivity.
Qed.

Lemma SFcompare_refl x : x <> S754_nan -> SFcompare x x = Some Eq.
Proof.
  destruct x as [sx|sx| |sx mx ex]; cbn; intros Hx;
    try congruence; destruct sx; try reflexivity;
    rewrite Z.compare_refl, Pos.compare_cont_spec, Pos.compare_refl;
    reflexivity.
Qed.

(** A NaN is neither below nor above any float. *)
Lemma nan_not_ordered x y :
  is_nan x = true -> (x <? y) = false /\ (y <? x) = false.
Proof.
  unfold is_nan. rewrite FloatAxioms.eqb_spec, !FloatAxioms.ltb_spec.
  unfold SFeqb, SFltb. intros Hx.
  assert (Hn : Prim2SF x = S754_nan).
  { destruct (Prim2SF x) as [sx|sx| |sx mx ex] eqn:E; try reflexivity;
      rewrite SFcompare_refl in Hx by discriminate; discriminate. }
  rewrite Hn. split; [reflexivity|].
  destruct (Prim2SF y); reflexivity.
Qed.

(** When the ratio of two scalar losses is NaN (0 / 0 or inf / inf on
    tensors, a NaN loss), or when both bounds are NaN,
    [IntervalParamScaler.__call__] returns lambda unchanged, whatever the
    scaling factor. *)
Theorem IntervalParamScaler_call_nan
    self lam (train_loss val_loss ratio : LossType) :
  is_scalar_loss train_loss = true -> is_scalar_loss val_loss = true ->
  py_truediv val_loss train_loss = Ok ratio ->
  is_nan (loss_value ratio) = true \/
  (is_nan (fst (tolerable_interval self)) = true /\
   is_nan (snd (tolerable_interval self)) = true) ->
  IntervalParamScaler_call self lam train_loss val_loss = Ok lam.
Proof.
  intros Ht Hv Hr Hnan.
  rewrite (IntervalParamScaler_call_ratio _ _ _ _ _ Ht Hv Hr).
  unfold loss_gt, loss_lt.
  assert (Hbound : forall x, is_nan x = true ->
                   is_nan (bound_for ratio x) = true).
  { intros x Hx. destruct ratio as [f|t]; cbn;
      [exact Hx | apply cast_scalar_nan, Hx]. }
  destruct Hnan as [Hn|[Hlo Hhi]].
  - destruct (nan_not_ordered _
                (bound_for ratio (snd (tolerable_interval self))) Hn)
      as [_ ->].
    destruct (nan_not_ordered _
                (bound_for ratio (fst (tolerable_interval self))) Hn)
      as [-> _].
    reflexivity.
  - destruct (nan_not_ordered _ (loss_value ratio) (Hbound _ Hhi))
      as [-> _].
    destruct (nan_not_ordered _ (loss_value ratio) (Hbound _ Hlo))
      as [_ ->].
    reflexivity.
Qed.

End IntervalParamScalerEdges.

Lemma IntervalParamScaler_call_nan_witness :
  IntervalParamScaler_call example_scaler 2 zero_tensor_loss zero_tensor_loss
    = Ok 2.
Proof.
  apply (IntervalParamScaler_call_nan example_scaler 2
           zero_tensor_loss zero_tensor_loss
           (LTensor (scalar_tensor nan)));
    [reflexivity | reflexivity | reflexivity | left; reflexivity].
Defined.

(** ** The logger stays in step with lambda_ *)

Section LambdaLogged.
Context {T : Torch}.

Lemma last_lambda_record_app (tr evs : list Event) :
  last_lambda_record (tr ++ evs) =
    fold_left
      (fun last e =>
         match e with
         | EvRecord key value =>
             if String.eqb key "regularization_lambda"
             then Some value else last
         | _ => last
         end)
      evs (last_lambda_record tr).
Proof. unfold last_lambda_record. apply fold_left_app. Qed.

Lemma last_lambda_record_set_data (evs : list Event) l last :
  List.map event_position evs = List.map Some l ->
  fold_left
    (fun last e =>
       match e with
       | EvRecord key value =>
           if String.eqb key "regularization_lambda"
           then Some value else last
       | _ => last
       end)
    evs last = last.
Proof.
  revert l. induction evs as [|e evs IH]; intros l Hl; [reflexivity|].
  destruct l as [|x l]; [discriminate|]. cbn in Hl.
  injection Hl as He Hl. destruct e; try discriminate. cbn. eapply IH, Hl.
Qed.

Lemma LossRegularizer_regularize_frame
    (f : Regularizer -> tensor -> pyval) loss (self : Regularizer) :
  LossRegularizer_regularize f loss self =
    (Ok (PyTensor (th_add_val loss (f self loss))),
     {| param_groups := param_groups self; lambda_ := lambda_ self;
        lambda_updater := lambda_updater self;
        trace := trace self ++
                   [EvBackward (th_add_val loss (f self loss));
                    EvRecord "regularized_loss"
                      (item (th_add_val loss (f self loss)))] |}).
Proof.
  unfold LossRegularizer_regularize, bind, get, backward,
    logger_record, emit, ret. cbn. rewrite <- app_assoc. reflexivity.
Qed.

(** After the constructor, and after any call to [update_params] (whatever
    the strategy does, return or raise) or to [regularize] of either family,
    the last value the logger received under "regularization_lambda" is the
    current lambda_. *)
Theorem lambda_logged_invariant :
  (forall optimizer initial_lambda updater log,
     lambda_logged (Regularizer_init optimizer initial_lambda updater log)) /\
  (forall train_loss val_loss (self : Regularizer),
     lambda_logged self ->
     lambda_logged (snd (update_params train_loss val_loss self))) /\
  (forall (f : Regularizer -> tensor -> pyval) loss (self : Regularizer),
     lambda_logged self ->
     lambda_logged (snd (LossRegularizer_regularize f loss self))) /\
  (forall (f : Regularizer -> Param -> ParamGroup -> pyval) loss
          (self : Regularizer),
     lambda_logged self ->
     lambda_logged (snd (WeightRegularizer_regularize f loss self))).
Proof.
  unfold lambda_logged. repeat split.
  - intros optimizer initial_lambda updater log.
    unfold Regularizer_init. cbn [trace lambda_].
    rewrite last_lambda_record_app. reflexivity.
  - intros train_loss val_loss self Hinv.
    destruct (isinstance_ConstantParamScaler (lambda_updater self)) eqn:Hc.
    + unfold update_params, bind, get. rewrite Hc. exact Hinv.
    + rewrite (update_params_run _ _ _ Hc).
      destruct (LambdaUpdater_call _ _ _ _) as [v|e]; cbn [snd trace lambda_].
      * rewrite last_lambda_record_app. reflexivity.
      * rewrite last_lambda_record_app. exact Hinv.
  - intros f loss self Hinv.
    rewrite LossRegularizer_regularize_frame. cbn [snd trace lambda_].
    rewrite last_lambda_record_app. exact Hinv.
  - intros f loss self Hinv.
    destruct (WeightRegularizer_regularize_general f loss self)
      as (self' & evs & -> & Htr & Hpos & _ & (Hlam & _) & _).
    cbn [snd]. rewrite Htr, Hlam, last_lambda_record_app.
    cbn [fold_left].
    rewrite (last_lambda_record_set_data _ _ _ Hpos). exact Hinv.
Qed.

End LambdaLogged.

Lemma lambda_logged_invariant_witness :
  lambda_logged
    (snd (update_params (LFloat 1) (LFloat 1.5)
            (snd (WeightDecayRegularizer_regularize scenario_loss
                    adaptive_regularizer)))).
Proof.
  apply (proj1 (proj2 lambda_logged_invariant)).
  apply (proj2 (proj2 (proj2 lambda_logged_invariant))).
  apply (proj1 lambda_logged_invariant).
Defined.

(** ** The Lp penalty sees only the parameters and lambda_ *)

Section LpFrame.
Context {T : Torch} {L : TorchLinalg T}.

Lemma LpRegularizer_regularize_loss_same_params (p : Z)
    (self self' : Regularizer) (loss loss' : tensor) :
  lambda_ self = lambda_ self' ->
  all_params (param_groups self) = all_params (param_groups self') ->
  LpRegularizer_regularize_loss p self loss =
    LpRegularizer_regularize_loss p self' loss'.
Proof.
  intros Hlam Hparams. unfold LpRegularizer_regularize_loss.
  rewrite !(fold_left_groups
              (fun penalty param => penalty_add penalty (norm_pow p param))).
  rewrite Hlam, Hparams. reflexivity.
Qed.

(** The Lp penalty does not depend on how the parameters are split into
    groups, nor on the learning rates, the strategy, the logger or the
    loss: it is the penalty of the regularizer with the same lambda_ whose
    optimizer holds all the parameters, in the same order, in a single group
    of any learning rate. *)
Theorem LpRegularizer_regularize_loss_regrouping (p : Z)
    (self : Regularizer) (loss loss' : tensor)
    (any_lr : float) (any_updater : LambdaUpdater) (any_trace : list Event) :
  LpRegularizer_regularize_loss p self loss =
    LpRegularizer_regularize_loss p
      {| param_groups :=
           [ {| params := all_params (param_groups self); lr := any_lr |} ];
         lambda_ := lambda_ self; lambda_updater := any_updater;
         trace := any_trace |} loss'.
Proof.
  apply LpRegularizer_regularize_loss_same_params; [reflexivity|].
  unfold all_params. cbn. rewrite app_nil_r. reflexivity.
Qed.

End LpFrame.

(** * Properties of the reward-network loaders *)

Section RewardNetProps.
Context {C : RewardNetClasses}.

(** When [_strip_wrappers] returns, the result is the input after [k]
    steps along [base], with [k] at most the number of wrapper types: the
    first [k] types are wrapper types matched, in order, by the first [k]
    objects, and the type at position [k], if there is one, is a wrapper
    type the result is not an instance of.  So one wrapper type removes at
    most one layer. *)
Theorem strip_wrappers_returns (net : RewardNet) (types : list cls)
    (net' : RewardNet) :
  _strip_wrappers net types = Returns net' ->
  exists k,
    (k <= length types)%nat /\
    unwrap k net = Some net' /\
    (forall i t, (i < k)%nat -> types !! i = Some t ->
       issubclass t RewardNetWrapper = true /\
       exists m, unwrap i net = Some m /\ isinstance m t = true) /\
    (forall t, types !! k = Some t ->
       issubclass t RewardNetWrapper = true /\ isinstance net' t = false).
Proof.
  revert net. induction types as [|t0 types IH]; intros net Hrun; cbn in Hrun.
  - injection Hrun as <-. exists 0%nat.
    split; [reflexivity|]. split; [reflexivity|]. split.
    + intros i t Hi. lia.
    + intros t Ht. discriminate.
  - destruct (issubclass t0 RewardNetWrapper) eqn:Hw; [|discriminate].
    destruct (isinstance net t0) eqn:Hi.
    + destruct net as [c|c base]; [discriminate|].
      destruct (IH base Hrun) as (k & Hk & Hun & Hpre & Hstop).
      exists (S k). split; [cbn; lia|]. split; [exact Hun|]. split.
      * intros i t Hlt Ht. destruct i as [|i]; cbn in Ht.
        -- injection Ht as <-. split; [exact Hw|].
           eexists. split; [reflexivity | exact Hi].
        -- destruct (Hpre i t) as (Hwt & m & Hm & Him); [lia | exact Ht |].
           split; [exact Hwt|]. exists m. split; assumption.
      * intros t Ht. cbn in Ht. apply Hstop, Ht.
    + injection Hrun as <-. exists 0%nat. split; [lia|].
      split; [reflexivity|]. split.
      * intros i t Hlt. lia.
      * intros t Ht. cbn in Ht. injection Ht as <-. split; assumption.
Qed.

(** The final [valid] of one prefix compares the classes met along [base]
    with the prefix position by position, as far as both reach. *)
Lemma prefix_valid_zip (net : RewardNet) (prefix : list cls) :
  prefix_valid net prefix = true <->
  Forall (fun ct => issubclass (fst ct) (snd ct) = true)
    (zip (wrapper_classes net) prefix).
Proof.
  revert net. induction prefix as [|t prefix IH]; intros net.
  - cbn. destruct net; cbn; split; auto.
  - cbn. unfold isinstance. destruct net as [c|c base]; cbn.
    + destruct (issubclass c t) eqn:E; split.
      * intros _. destruct prefix; repeat constructor; exact E.
      * reflexivity.
      * discriminate.
      * destruct prefix; intros Hf; inversion Hf; subst; cbn in *;
          congruence.
    + destruct (issubclass c t) eqn:E.
      * rewrite IH. split.
        -- intros Hf. constructor; [exact E | exact Hf].
        -- intros Hf. inversion Hf; subst. assumption.
      * split; [discriminate|].
        intros Hf. inversion Hf; subst. cbn in *. congruence.
Qed.

Lemma some_prefix_valid_Exists (net : RewardNet) (prefixes : list (list cls)) :
  some_prefix_valid net prefixes = true <->
  Exists (fun prefix => prefix_valid net prefix = true) prefixes.
Proof.
  induction prefixes as [|prefix prefixes IH]; cbn.
  - split; [discriminate | intros Hex; inversion Hex].
  - destruct (prefix_valid net prefix) eqn:E.
    + split; [intros _; left; exact E | reflexivity].
    + rewrite IH. split.
      * intros Hex. right. exact Hex.
      * intros Hex. inversion Hex; subst; [congruence | assumption].
Qed.

(** [_validate_wrapper_structure] returns its argument, unchanged, exactly
    when some prefix agrees with the classes met along [base] on every
    position both have; types of a prefix beyond the innermost network are
    not looked at, and an empty prefix accepts every network.  In every
    other case, in particular for an empty list of prefixes, it raises
    [TypeError]. *)
Theorem validate_wrapper_structure_spec (net : RewardNet)
    (prefixes : list (list cls)) :
  let accepted :=
    Exists (fun prefix =>
              Forall (fun ct => issubclass (fst ct) (snd ct) = true)
                (zip (wrapper_classes net) prefix)) prefixes in
  (forall net',
     _validate_wrapper_structure net prefixes = Returns net' <->
     net' = net /\ accepted) /\
  (~ accepted ->
   exists msg,
     _validate_wrapper_structure net prefixes = Raises (PyTypeError msg)) /\
  (In [] prefixes -> _validate_wrapper_structure net prefixes = Returns net) /\
  (exists msg, _validate_wrapper_structure net [] = Raises (PyTypeError msg)).
Proof.
  cbv zeta. unfold _validate_wrapper_structure.
  assert (Hiff : some_prefix_valid net prefixes = true <->
                 Exists (fun prefix =>
                   Forall (fun ct => issubclass (fst ct) (snd ct) = true)
                     (zip (wrapper_classes net) prefix)) prefixes).
  { rewrite some_prefix_valid_Exists, !Exists_exists.
    split; intros (prefix & Hin & Hp); exists prefix;
      (split; [exact Hin | apply prefix_valid_zip; exact Hp]). }
  split; [|split; [|split]].
  - intros net'. destruct (some_prefix_valid net prefixes) eqn:E.
    + split.
      * intros Hr. injection Hr as <-. split; [reflexivity|].
        apply Hiff. reflexivity.
      * intros [-> _]. reflexivity.
    + split; [discriminate|]. intros [_ Hacc]. apply Hiff in Hacc. discriminate.
  - intros Hnot. destruct (some_prefix_valid net prefixes) eqn:E.
    + exfalso. apply Hnot, Hiff. reflexivity.
    + eexists. reflexivity.
  - intros Hin.
    assert (Hex : some_prefix_valid net prefixes = true).
    { apply Hiff. apply Exists_exists. exists []. split; [apply list_elem_of_In; exact Hin|].
      destruct (wrapper_classes net); constructor. }
    rewrite Hex. reflexivity.
  - eexists. reflexivity.
Qed.

End RewardNetProps.

Section RewardNetPipelines.
Context {C : RewardNetClasses}.

(** When no class derives from both [AddSTDRewardWrapper] and
    [NormalizedRewardNet], the network the "RewardNet_std_added" entry
    hands on, if it hands one on, is an [AddSTDRewardWrapper]: the loaded
    network itself, or its [base] when the loaded network is a
    [NormalizedRewardNet]. *)
Theorem std_added_net_is_std_added (loaded net' : RewardNet) :
  (forall c, issubclass c AddSTDRewardWrapper = true ->
             issubclass c NormalizedRewardNet = false) ->
  std_added_net loaded = Returns net' ->
  isinstance net' AddSTDRewardWrapper = true /\
  ((net' = loaded /\ isinstance loaded NormalizedRewardNet = false) \/
   (exists c, loaded = WrappedNet c net' /\
              isinstance loaded NormalizedRewardNet = true)).
Proof.
  intros Hdisj Hrun. unfold std_added_net, _validate_wrapper_structure in Hrun.
  destruct (some_prefix_valid loaded _) eqn:Hv; cbn [and_then] in Hrun;
    [|discriminate].
  cbn [_strip_wrappers] in Hrun.
  destruct (issubclass NormalizedRewardNet RewardNetWrapper); [|discriminate].
  destruct (isinstance loaded NormalizedRewardNet) eqn:Hn.
  - destruct loaded as [c|c base]; [discriminate|]. injection Hrun as <-.
    split; [|right; exists c; split; reflexivity].
    cbn in Hv. unfold isinstance in *. cbn [class_of] in Hv, Hn.
    destruct (issubclass c AddSTDRewardWrapper) eqn:Ha.
    + rewrite (Hdisj c Ha) in Hn. discriminate.
    + rewrite Hn in Hv.
      destruct (issubclass (class_of base) AddSTDRewardWrapper);
        [reflexivity | discriminate].
  - injection Hrun as <-.
    split; [|left; split; reflexivity].
    destruct loaded as [c|c base]; cbn in Hv; unfold isinstance in *;
      cbn [class_of] in Hv, Hn |- *; rewrite Hn in Hv;
      destruct (issubclass c AddSTDRewardWrapper);
      first [reflexivity | discriminate].
Qed.

End RewardNetPipelines.

(** The doctest of [_validate_wrapper_structure], and two edges: a prefix
    longer than the chain is accepted, and the message of a rejection. *)
Example validate_wrapper_structure_doctest :
  _validate_wrapper_structure shaped_basic_net [[CShaped; CBasic]]
  = Returns shaped_basic_net.
Proof. reflexivity. Qed.

Example validate_wrapper_structure_long_prefix :
  _validate_wrapper_structure basic_net [[CBasic; CShaped; CNormalized]]
  = Returns basic_net.
Proof. reflexivity. Qed.

Example validate_wrapper_structure_message :
  _validate_wrapper_structure normalized_std_net [[CShaped]; [CAddSTD]]
  = Raises (PyTypeError
      "Wrapper structure should be match (one of) [ShapedRewardNet] or [AddSTDRewardWrapper] but found [NormalizedRewardNet,AddSTDRewardWrapper,BasicRewardNet]").
Proof. reflexivity. Qed.

Lemma strip_wrappers_returns_witness :
  unshaped_net twice_shaped_net = Returns shaped_basic_net
  /\ exists k, (k <= 1)%nat /\
       unwrap k twice_shaped_net = Some shaped_basic_net.
Proof.
  split; [reflexivity|].
  destruct (strip_wrappers_returns twice_shaped_net [CShaped]
              shaped_basic_net eq_refl)
    as (k & Hk & Hun & _).
  exists k. split; [exact Hk | exact Hun].
Defined.

Lemma std_added_net_is_std_added_witness :
  isinstance std_basic_net CAddSTD = true.
Proof.
  apply (std_added_net_is_std_added normalized_std_net std_basic_net).
  - intros c. destruct c; cbn; intros Hc; try discriminate Hc; reflexivity.
  - reflexivity.
Defined.

(** ** The zero reward *)

(** The zero reward satisfies the shape check of [_validate_reward]: wrapped
    or not, on observations of at least one dimension it returns the zeros
    of shape (obs.shape[0],), and on a zero-dimensional array it raises
    [IndexError] before any check. *)
Theorem load_zero_passes_validation {VecEnv : Type}
    (path : string) (venv : VecEnv) (obs act next_obs dones : ndarray) :
  _validate_reward (load_zero path venv) obs act next_obs dones
    = load_zero path venv obs act next_obs dones /\
  (forall n rest, nd_shape obs = n :: rest ->
     load_zero path venv obs act next_obs dones = Returns (np_zeros n)) /\
  (nd_shape obs = [] ->
     load_zero path venv obs act next_obs dones = Raises PyIndexError).
Proof.
  unfold _validate_reward, load_zero, shape_0, py_len.
  destruct (nd_shape obs) as [|n rest]; cbn.
  - repeat split; congruence.
  - split; [|split].
    + destruct (decide ([n] = [n])); [reflexivity | congruence].
    + intros n' rest' E. injection E as <- _. reflexivity.
    + discriminate.
Qed.

(** * Properties of the parallel script *)

Section ParallelProps.
Context {W : RayWorld}.

(** For a known experiment and a config with a list under "named_configs",
    a mapping under "config_updates" and no "options" key, [inner] runs the
    experiment on keyword arguments in which: the named configs are the base
    ones followed by those of the config; a config update comes from the
    trial index for "seed" when the config has "__trial_index__", else from
    the config's updates, else from the base updates; "__trial_index__" is
    absent; every other key is as in the config.  The trial index is removed
    from the caller's config, and Sacred's capture mode is "sys". *)
Theorem inner_forwards (trainable : Trainable) (st : TrialState)
    (search_named_configs : list pyvalue) (search_config_updates : kwargs) :
  is_experiment (tr_sacred_ex_name trainable) = true ->
  config st !! "named_configs" = Some (PList search_named_configs) ->
  config st !! "config_updates" = Some (PDict search_config_updates) ->
  config st !! "options" = None ->
  exists (forwarded updates : kwargs) (st' : TrialState),
    inner trainable st =
      (finish_run
         (ex_run (tr_sacred_ex_name trainable) forwarded
            (<["--run" := PStr (tr_run_name trainable)]>
               (<["--file_storage" := PStr "sacred"]> ∅))), st') /\
    forwarded !! "named_configs" =
      Some (PList (tr_base_named_configs trainable ++ search_named_configs)) /\
    forwarded !! "config_updates" = Some (PDict updates) /\
    (forall index, config st !! "__trial_index__" = Some index ->
       updates !! "seed" = Some index) /\
    (forall k, k <> "seed" \/ config st !! "__trial_index__" = None ->
       updates !! k =
         match search_config_updates !! k with
         | Some v => Some v
         | None => tr_base_config_updates trainable !! k
         end) /\
    forwarded !! "__trial_index__" = None /\
    (forall k, k <> "named_configs" -> k <> "config_updates" ->
       k <> "__trial_index__" -> forwarded !! k = config st !! k) /\
    config st' = delete "__trial_index__" (config st) /\
    capture_mode st' = "sys".
Proof.
  intros Hex Hnc Hcu Hopt. unfold inner. cbn [config].
  rewrite Hex, Hnc, Hcu. cbn [negb].
  assert (Hupd : forall k,
            dict_update (dict_update ∅ (tr_base_config_updates trainable))
              search_config_updates !! k =
            match search_config_updates !! k with
            | Some v => Some v
            | None => tr_base_config_updates trainable !! k
            end).
  { intros k. unfold dict_update. rewrite !lookup_union, lookup_empty.
    destruct (search_config_updates !! k);
      destruct (tr_base_config_updates trainable !! k); reflexivity. }
  destruct (config st !! "__trial_index__") as [index|] eqn:Hti.
  - assert (Ho : (<["config_updates" := PDict
                     (<["seed" := index]>
                        (dict_update
                           (dict_update ∅ (tr_base_config_updates trainable))
                           search_config_updates))]>
                   (<["named_configs" := PList
                        (tr_base_named_configs trainable
                           ++ search_named_configs)]> ∅)
                   ∪ delete "__trial_index__" (config st) : kwargs)
                 !! "options" = None).
    { rewrite lookup_union, !lookup_insert_ne, lookup_empty by discriminate.
      rewrite lookup_delete_ne by discriminate. rewrite Hopt. reflexivity. }
    rewrite Ho.
    match goal with |- context [ex_run _ ?F _] => exists F end.
    exists (<["seed" := index]>
              (dict_update (dict_update ∅ (tr_base_config_updates trainable))
                 search_config_updates)).
    exists {| capture_mode := "sys";
              config := delete "__trial_index__" (config st) |}.
    split.
    { unfold finish_run. destruct (ex_run _ _ _) as [run|e];
        [destruct (String.eqb _ _)|]; reflexivity. }
    split; [|split; [|split; [|split; [|split; [|split; [|split]]]]]].
    + rewrite lookup_union, lookup_insert_ne, lookup_insert_eq by discriminate.
      destruct (delete _ _ !! _); reflexivity.
    + rewrite lookup_union, lookup_insert_eq.
      destruct (delete _ _ !! _); reflexivity.
    + intros i Hi. injection Hi as <-. apply lookup_insert_eq.
    + intros k [Hk|Hk]; [|discriminate].
      rewrite lookup_insert_ne by congruence. apply Hupd.
    + rewrite lookup_union, !lookup_insert_ne, lookup_empty by discriminate.
      rewrite lookup_delete_eq. reflexivity.
    + intros k H1 H2 H3.
      rewrite lookup_union, !lookup_insert_ne, lookup_empty by congruence.
      rewrite lookup_delete_ne by congruence.
      destruct (config st !! k); reflexivity.
    + reflexivity.
    + reflexivity.
  - assert (Ho : (<["config_updates" := PDict
                     (dict_update
                        (dict_update ∅ (tr_base_config_updates trainable))
                        search_config_updates)]>
                   (<["named_configs" := PList
                        (tr_base_named_configs trainable
                           ++ search_named_configs)]> ∅)
                   ∪ config st : kwargs)
                 !! "options" = None).
    { rewrite lookup_union, !lookup_insert_ne, lookup_empty by discriminate.
      rewrite Hopt. reflexivity. }
    rewrite Ho.
    match goal with |- context [ex_run _ ?F _] => exists F end.
    exists (dict_update (dict_update ∅ (tr_base_config_updates trainable))
              search_config_updates).
    exists {| capture_mode := "sys"; config := config st |}.
    split.
    { unfold finish_run. destruct (ex_run _ _ _) as [run|e];
        [destruct (String.eqb _ _)|]; reflexivity. }
    split; [|split; [|split; [|split; [|split; [|split; [|split]]]]]].
    + rewrite lookup_union, lookup_insert_ne, lookup_insert_eq by discriminate.
      rewrite Hnc. reflexivity.
    + rewrite lookup_union, lookup_insert_eq, Hcu. reflexivity.
    + discriminate.
    + intros k _. apply Hupd.
    + rewrite lookup_union, !lookup_insert_ne, lookup_empty by discriminate.
      rewrite Hti. reflexivity.
    + intros k H1 H2 H3.
      rewrite lookup_union, !lookup_insert_ne, lookup_empty by congruence.
      destruct (config st !! k); reflexivity.
    + cbn. symmetry. apply delete_id. exact Hti.
    + reflexivity.
Qed.

End ParallelProps.

Lemma inner_forwards_witness :
  fst (inner example_trainable example_trial) =
    Returns (PDict (<["seed" := PInt 3]>
                      (<["lr" := PInt 1]>
                         (<["gamma" := PInt 9]> ∅)))) /\
  config (snd (inner example_trainable example_trial)) = example_search_space.
Proof.
  destruct (inner_forwards example_trainable example_trial
              [PStr "fast"] (<["lr" := PInt 1]> ∅)
              eq_refl eq_refl eq_refl eq_refl)
    as (forwarded & updates & st' & Hrun & _).
  split; vm_compute; reflexivity.
Defined.

Section ParallelErrors.
Context {W : RayWorld}.

(** [inner] fails before the experiment is run, in this order: on an
    experiment name that is not one of the four, with [KeyError]; on a config
    without "named_configs" or without "config_updates", with [KeyError]
    and the caller's config untouched; on a config with an "options" key,
    with [TypeError] whatever the experiment would do, because the keyword
    is passed twice. *)
Theorem inner_fails_early (trainable : Trainable) (st : TrialState) :
  let untouched := {| capture_mode := "sys"; config := config st |} in
  (is_experiment (tr_sacred_ex_name trainable) = false ->
     inner trainable st =
       (Raises (PyKeyError (tr_sacred_ex_name trainable)), untouched)) /\
  (is_experiment (tr_sacred_ex_name trainable) = true ->
   config st !! "named_configs" = None ->
     inner trainable st = (Raises (PyKeyError "named_configs"), untouched)) /\
  (forall l,
     is_experiment (tr_sacred_ex_name trainable) = true ->
     config st !! "named_configs" = Some (PList l) ->
     config st !! "config_updates" = None ->
     inner trainable st = (Raises (PyKeyError "config_updates"), untouched)) /\
  (forall l d v,
     is_experiment (tr_sacred_ex_name trainable) = true ->
     config st !! "named_configs" = Some (PList l) ->
     config st !! "config_updates" = Some (PDict d) ->
     config st !! "options" = Some v ->
     exists msg,
       inner trainable st =
         (Raises (PyTypeError msg),
          {| capture_mode := "sys";
             config := delete "__trial_index__" (config st) |})).
Proof.
  cbv zeta. unfold inner. cbn [config]. repeat split.
  - intros ->. reflexivity.
  - intros -> ->. reflexivity.
  - intros l -> -> ->. reflexivity.
  - intros l d v -> -> -> Hopt. cbn [negb].
    destruct (config st !! "__trial_index__") as [index|] eqn:Hti.
    + rewrite lookup_union, !lookup_insert_ne, lookup_empty by discriminate.
      rewrite lookup_delete_ne by discriminate. rewrite Hopt. cbn.
      eexists. reflexivity.
    + rewrite lookup_union, !lookup_insert_ne, lookup_empty by discriminate.
      rewrite Hopt. cbn. rewrite (delete_id _ _ Hti).
      eexists. reflexivity.
Qed.

(** Ray is initialised exactly when the four checks at the head of
    [parallel] pass: when one fails, [parallel] raises without any call to
    Ray; when all pass, the first call is [ray.init]. *)
Theorem parallel_validates_first
    sacred_ex_name run_name num_samples search_space
    base_named_configs base_config_updates resources_per_trial init_kwargs
    local_dir upload_dir repeat search_alg experiment_checkpoint_path syncer :
  let run :=
    parallel sacred_ex_name run_name num_samples search_space
      base_named_configs base_config_updates resources_per_trial init_kwargs
      local_dir upload_dir repeat search_alg experiment_checkpoint_path
      syncer in
  (parallel_invalid search_space base_named_configs base_config_updates
     = true ->
   snd run = [] /\
   exists e, fst run = Raises e /\
     ((exists msg, e = PyTypeError msg) \/ (exists key, e = PyKeyError key))) /\
  (parallel_invalid search_space base_named_configs base_config_updates
     = false ->
   exists rest, snd run = RayInit init_kwargs :: rest).
Proof.
  cbv zeta. unfold parallel, parallel_invalid, parallel_try.
  destruct (is_sequence base_named_configs); cbn [negb orb];
    [|split; [intros _; split; [reflexivity | eauto] | discriminate]].
  destruct (is_mapping base_config_updates); cbn [negb orb];
    [|split; [intros _; split; [reflexivity | eauto] | discriminate]].
  destruct (search_space !! "named_configs") as [v1|]; cbn [negb orb];
    [|split; [intros _; split; [reflexivity | eauto] | discriminate]].
  destruct (is_sequence v1); cbn [negb orb];
    [|split; [intros _; split; [reflexivity | eauto] | discriminate]].
  destruct (search_space !! "config_updates") as [v2|]; cbn [negb orb];
    [|split; [intros _; split; [reflexivity | eauto] | discriminate]].
  destruct (is_mapping v2); cbn [negb orb];
    [|split; [intros _; split; [reflexivity | eauto] | discriminate]].
  split; [discriminate|]. intros _.
  destruct (ray_init init_kwargs); [|eexists; reflexivity].
  destruct (is_optuna search_alg).
  - destruct (optuna_repeater repeat); [|eexists; reflexivity].
    destruct (negb _); eexists; reflexivity.
  - destruct (Z.eqb repeat 1); [|eexists; reflexivity].
    destruct (negb _); eexists; reflexivity.
Qed.

(** Whatever the calls to Ray return or raise, the calls [parallel] makes
    are: none; [ray.init] alone; [ray.init] and the Optuna repeater; or
    [ray.init], possibly the repeater, then one attempt to load a previous
    experiment or to run the trials, then [ray.shutdown].  So Ray is shut
    down exactly when the [try] block was entered, and last. *)
Theorem parallel_shutdown
    sacred_ex_name run_name num_samples search_space
    base_named_configs base_config_updates resources_per_trial init_kwargs
    local_dir upload_dir repeat search_alg experiment_checkpoint_path syncer :
  let calls :=
    snd (parallel sacred_ex_name run_name num_samples search_space
           base_named_configs base_config_updates resources_per_trial
           init_kwargs local_dir upload_dir repeat search_alg
           experiment_checkpoint_path syncer) in
  calls = [] \/
  calls = [RayInit init_kwargs] \/
  calls = [RayInit init_kwargs; OptunaRepeater repeat] \/
  exists before attempt,
    calls = RayInit init_kwargs :: before ++ [attempt; RayShutdown] /\
    is_try_event attempt = true /\
    (before = [] \/ before = [OptunaRepeater repeat]).
Proof.
  cbv zeta. unfold parallel, parallel_try.
  destruct (is_sequence base_named_configs); cbn [negb]; [|auto].
  destruct (is_mapping base_config_updates); cbn [negb]; [|auto].
  destruct (search_space !! "named_configs") as [v1|]; [|auto].
  destruct (is_sequence v1); cbn [negb]; [|auto].
  destruct (search_space !! "config_updates") as [v2|]; [|auto].
  destruct (is_mapping v2); cbn [negb]; [|auto].
  destruct (ray_init init_kwargs); [|auto].
  destruct (is_optuna search_alg).
  - destruct (optuna_repeater repeat); [|auto].
    do 3 right. exists [OptunaRepeater repeat].
    destruct (negb _); eexists; (split; [reflexivity|]); auto.
  - destruct (Z.eqb repeat 1); [|auto].
    do 3 right. exists [].
    destruct (negb _); eexists; (split; [reflexivity|]); auto.
Qed.

(** When the checks pass and [ray.init] returns, a [search_alg] other than
    "optuna" with [repeat] different from 1 fails the assertion: [parallel]
    raises [AssertionError] with Ray initialised and not shut down, the
    assertion standing before the [try]. *)
Theorem parallel_repeat_assertion
    sacred_ex_name run_name num_samples search_space
    base_named_configs base_config_updates resources_per_trial init_kwargs
    local_dir upload_dir repeat search_alg experiment_checkpoint_path syncer
    u :
  parallel_invalid search_space base_named_configs base_config_updates
    = false ->
  ray_init init_kwargs = Returns u ->
  is_optuna search_alg = false ->
  repeat <> 1%Z ->
  parallel sacred_ex_name run_name num_samples search_space
    base_named_configs base_config_updates resources_per_trial init_kwargs
    local_dir upload_dir repeat search_alg experiment_checkpoint_path syncer
  = (Raises PyAssertionError, [RayInit init_kwargs]).
Proof.
  unfold parallel, parallel_invalid. intros Hvalid Hinit Hopt Hrep.
  destruct (is_sequence base_named_configs); [|discriminate].
  destruct (is_mapping base_config_updates); [|discriminate].
  destruct (search_space !! "named_configs") as [v1|]; [|discriminate].
  destruct (is_sequence v1); [|discriminate].
  destruct (search_space !! "config_updates") as [v2|]; [|discriminate].
  destruct (is_mapping v2); [|discriminate].
  cbn [negb]. rewrite Hinit, Hopt.
  destruct (Z.eqb_spec repeat 1); [contradiction | reflexivity].
Qed.

End ParallelErrors.

Lemma parallel_repeat_assertion_witness :
  parallel "train_rl" "demo" 4 example_search_space
    (PList [PStr "base"]) (PDict ∅) ∅ ∅ None None 2 None "" PNone
  = (Raises PyAssertionError, [RayInit ∅]).
Proof.
  apply (parallel_repeat_assertion "train_rl" "demo" 4 example_search_space
           (PList [PStr "base"]) (PDict ∅) ∅ ∅ None None 2 None "" PNone tt);
    [vm_compute; reflexivity | reflexivity | reflexivity | lia].
Defined.

(** A run with Optuna and three repeats of four samples: twelve samples
    are asked of [ray.tune.run], between [ray.init] and [ray.shutdown]. *)
Example parallel_optuna_run :
  exists args,
    parallel "train_rl" "demo" 4 example_search_space
      (PList [PStr "base"]) (PDict ∅) ∅ ∅ None None 3 (Some "optuna") ""
      PNone
    = (Returns "monitor_return_mean",
       [RayInit ∅; OptunaRepeater 3; TuneRun args; RayShutdown]) /\
    tune_num_samples args = 12%Z /\
    tune_search_alg args = Some 3%Z.
Proof. eexists. split; [vm_compute; reflexivity | split; reflexivity]. Qed.

(** * The shared default of [_make_functional] *)

(** Two functionals made without [default_kwargs] hold the same dict: the
    keyword arguments given when making the second are passed by the first
    one too, on top of its own, the later value winning on a common key.  A
    functional made with a [default_kwargs] of its own is not affected and
    leaves the shared dict as it was, as does a functional made with no
    keyword argument. *)
Theorem make_functional_shares_default {Net : Type}
    (net1 net2 : Net) (attr1 attr2 : string) (kw1 kw2 d shared : kwargs) :
  let '(f1, shared1) := _make_functional net1 attr1 None kw1 shared in
  let '(f2, shared2) := _make_functional net2 attr2 None kw2 shared1 in
  let '(f3, shared3) := _make_functional net1 attr1 (Some d) kw1 shared2 in
  let '(f4, shared4) := _make_functional net2 attr2 None ∅ shared3 in
  passed_kwargs f1 shared1 = kw1 ∪ shared /\
  passed_kwargs f1 shared4 = kw2 ∪ (kw1 ∪ shared) /\
  passed_kwargs f2 shared4 = passed_kwargs f1 shared4 /\
  passed_kwargs f4 shared4 = passed_kwargs f1 shared4 /\
  passed_kwargs f3 shared4 = kw1 ∪ d /\
  shared4 = shared2.
Proof.
  cbn. unfold passed_kwargs, dict_update. cbn.
  rewrite (left_id_L ∅ (∪)). repeat split.
Qed.

(** * The loss family, on torch's operations *)

(** C3: for every p (in particular p >= 1), every lambda_ and every
    collection of parameter groups, [LpRegularizer._regularize_loss] is
    lambda_ times the sum, over every parameter tensor of every group, of the
    p-th power of its Lp vector norm, and the loss argument plays no part.
    With the vectors (3, 4) and (-6, 8) in two groups, p = 2 and lambda 0.5,
    it is 0.5 * (25 + 100) = 62.5. *)
Theorem LpRegularizer_regularize_loss_spec :
  (forall (T : Torch) (L : TorchLinalg T) (p : Z) (self : Regularizer)
          (loss loss' : tensor),
     LpRegularizer_regularize_loss p self loss =
       spec_lp_penalty p (lambda_ self) (param_groups self) /\
     LpRegularizer_regularize_loss p self loss =
       LpRegularizer_regularize_loss p self loss') /\
  LpRegularizer_regularize_loss 2 lp_example_regularizer scenario_loss
    = VTensor (scalar_tensor 62.5) /\
  lp_norm_power 2 (vector_tensor [3; 4]) = scalar_tensor 25 /\
  lp_norm_power 2 (vector_tensor [-6; 8]) = scalar_tensor 100 /\
  lp_norm_power 1 (vector_tensor [-6; 8]) = scalar_tensor 14.
Proof.
  split; [|repeat split].
  intros T L p self loss loss'. split; [|reflexivity].
  apply LpRegularizer_regularize_loss_flat.
Qed.

(** C5: for every loss and every penalty method, [LossRegularizer.regularize]
    forms loss + _regularize_loss(loss) with [th.add], runs the backward
    pass on that sum (not on the loss it was given), then sends the sum's
    value to the logger under "regularized_loss", and returns the sum.  With
    the loss 3 and the Lp penalty 62.5 of the example, the backward pass, the
    record and the result are all on 65.5. *)
Theorem LossRegularizer_regularize_spec :
  (forall (T : Torch) (_regularize_loss : Regularizer -> tensor -> pyval)
          (loss : tensor) (self : Regularizer),
     let regularized_loss :=
       match _regularize_loss self loss with
       | VTensor penalty => th_add loss penalty
       | VNum penalty => th_add_scalar loss penalty
       end in
     LossRegularizer_regularize _regularize_loss loss self =
       (Ok (PyTensor regularized_loss),
        {| param_groups := param_groups self; lambda_ := lambda_ self;
           lambda_updater := lambda_updater self;
           trace := trace self ++
                      [EvBackward regularized_loss;
                       EvRecord "regularized_loss"
                         (item regularized_loss)] |})) /\
  LpRegularizer_regularize 2 scenario_loss lp_example_regularizer =
    (Ok (PyTensor (scalar_tensor 65.5)),
     {| param_groups := param_groups lp_example_regularizer;
        lambda_ := 0.5; lambda_updater := Constant;
        trace := [ EvRecord "regularization_lambda" 0.5;
                   EvBackward (scalar_tensor 65.5);
                   EvRecord "regularized_loss" 65.5 ] |}) /\
  scenario_loss = scalar_tensor 3 /\
  3 + 62.5 = 65.5 /\
  (65.5 =? 3) = false.
Proof.
  split; [|repeat split].
  intros T f loss self. cbv zeta.
  rewrite LossRegularizer_regularize_frame. unfold th_add_val.
  destruct (f self loss); reflexivity.
Qed.
